(** * Client-side contract of the legal RAG chat UI

    A shallow embedding of the browser client: the API wrapper
    ([frontend/src/lib/api.ts]), the chat area, the upload modal, the
    settings panel and the chat history panel, then the toasts, the page
    that holds them together and the status poll of the dashboard.
    React state is a record,
    an event handler is a function on that record, and everything a
    handler learns from the network or the clock is an explicit argument. *)

From Stdlib Require Import String Ascii ZArith NArith List Bool Lia.
From Stdlib Require Import DecimalString Floats QArith Qpower Lqa Sorted.
From Stdlib Require Import DecimalN DecimalPos.
Import ListNotations.

(** ** JavaScript values *)

Module JS.

(** A JavaScript string is a sequence of UTF-16 code units. *)
Definition code_unit := N.
Definition jsstring := list code_unit.

(** A JavaScript number is an IEEE 754 binary64 value. *)
Definition number := float.

Local Open Scope N_scope.

(** Source literals are written as (UTF-8) Rocq strings and decoded to
    code units; [surrogates] splits a supplementary code point. *)
Definition surrogates (cp : N) : jsstring :=
  let v := cp - 65536 in [55296 + v / 1024; 56320 + v mod 1024].

Fixpoint utf16_of_utf8 (bs : list N) : jsstring :=
  match bs with
  | [] => []
  | b0 :: r0 =>
    if b0 <? 128 then b0 :: utf16_of_utf8 r0
    else
      match r0 with
      | [] => []
      | b1 :: r1 =>
        if b0 <? 224 then ((b0 - 192) * 64 + (b1 - 128)) :: utf16_of_utf8 r1
        else
          match r1 with
          | [] => []
          | b2 :: r2 =>
            if b0 <? 240
            then ((b0 - 224) * 4096 + (b1 - 128) * 64 + (b2 - 128))
                   :: utf16_of_utf8 r2
            else
              match r2 with
              | [] => []
              | b3 :: r3 =>
                surrogates ((b0 - 240) * 262144 + (b1 - 128) * 4096
                            + (b2 - 128) * 64 + (b3 - 128))
                  ++ utf16_of_utf8 r3
              end
          end
      end
  end.

Definition lit (s : string) : jsstring :=
  utf16_of_utf8 (map N_of_ascii (list_ascii_of_string s)).

Definition code_unit_eqb : code_unit -> code_unit -> bool := N.eqb.

Fixpoint jsstring_eqb (a b : jsstring) : bool :=
  match a, b with
  | [], [] => true
  | x :: a', y :: b' => code_unit_eqb x y && jsstring_eqb a' b'
  | _, _ => false
  end.

(** ECMAScript [WhiteSpace] and [LineTerminator] code points, the
    characters [String.prototype.trim] strips.  All lie in the BMP. *)
Definition is_white_space (c : code_unit) : bool :=
  (c =? 9) || (c =? 10) || (c =? 11) || (c =? 12) || (c =? 13)
  || (c =? 32) || (c =? 160) || (c =? 5760)
  || ((8192 <=? c) && (c <=? 8202))
  || (c =? 8232) || (c =? 8233) || (c =? 8239) || (c =? 8287)
  || (c =? 12288) || (c =? 65279).

Fixpoint trimStart (s : jsstring) : jsstring :=
  match s with
  | [] => []
  | c :: r => if is_white_space c then trimStart r else s
  end.

Definition trimEnd (s : jsstring) : jsstring := rev (trimStart (rev s)).

Definition trim (s : jsstring) : jsstring := trimEnd (trimStart s).

(** ToBoolean on a string: the empty string is the only falsy one. *)
Definition truthy_string (s : jsstring) : bool :=
  match s with [] => false | _ :: _ => true end.

(** [Array.prototype.slice(start, end)] with relative (possibly
    negative) indices. *)
Definition relative_index (len k : Z) : Z :=
  (if k <? 0 then Z.max (len + k) 0 else Z.min k len)%Z.

Definition slice {A} (start stop : Z) (l : list A) : list A :=
  let len := Z.of_nat (length l) in
  let from := relative_index len start in
  let final := relative_index len stop in
  firstn (Z.to_nat (Z.max (final - from) 0)) (skipn (Z.to_nat from) l).

(** What a [try] block can catch: an [Error] instance, of which only the
    message is read, or any other thrown value. *)
Inductive Thrown :=
| ErrorObj (message : jsstring)
| NonError.

(** A settled promise. *)
Inductive Settled (A : Type) :=
| Resolved (value : A)
| Rejected (reason : Thrown).
Arguments Resolved {A} value.
Arguments Rejected {A} reason.

(** [a ?? b] on an optional property: [None] is [undefined]. *)
Definition nullish {A} (a : option A) (b : A) : A :=
  match a with Some v => v | None => b end.

(** The decimal digits of a non-negative integer, as a template literal
    prints an integral number below 2^53. *)
Definition decimal (n : N) : jsstring :=
  lit (NilZero.string_of_uint (N.to_uint n)).

#[local] Set Warnings "-register-all".

(** A value produced by [JSON.parse].  The properties of an object are
    kept in the order of the text; a later duplicate key overrides an
    earlier one. *)
Inductive json :=
| JNull
| JBool (b : bool)
| JNumber (n : number)
| JString (s : jsstring)
| JArray (items : list json)
| JObject (props : list (jsstring * json)).

Fixpoint own_property (key : jsstring) (props : list (jsstring * json))
  : option json :=
  match props with
  | [] => None
  | (k, v) :: rest =>
    match own_property key rest with
    | Some later => Some later
    | None => if jsstring_eqb k key then Some v else None
    end
  end.

(** Reading [v.key] for a key that no prototype defines ([detail],
    [status], [model], ...): [TypeError] on [null], [undefined] on every
    value but an object that has the key. *)
Inductive Read :=
| ReadThrows
| ReadValue (v : option json).

Definition get (v : json) (key : jsstring) : Read :=
  match v with
  | JNull => ReadThrows
  | JObject props => ReadValue (own_property key props)
  | _ => ReadValue None
  end.

(** ToBoolean. *)
Definition truthy (v : option json) : bool :=
  match v with
  | None | Some JNull => false
  | Some (JBool b) => b
  | Some (JNumber n) => negb (PrimFloat.eqb n 0 || PrimFloat.is_nan n)
  | Some (JString s) => truthy_string s
  | Some (JArray _) | Some (JObject _) => true
  end.

(** What the language leaves to the engine: the digits of a number and
    the wording of its two [TypeError]s, for reading a property of
    [null] and for an object that has no primitive value. *)
Record Engine := {
  Number_toString : number -> jsstring;
  null_read_message : jsstring -> jsstring;
  not_primitive_message : jsstring
}.

Definition has_own_property (key : jsstring) (props : list (jsstring * json))
  : bool :=
  match own_property key props with Some _ => true | None => false end.

(** ToString on a parsed value; [None] is the [TypeError] of an object
    whose own [toString] property hides the inherited method (a parsed
    value is never callable).  An array joins its elements with commas,
    [null] elements giving the empty string. *)
Fixpoint ToString (E : Engine) (v : json) : option jsstring :=
  match v with
  | JNull => Some (lit "null")
  | JBool true => Some (lit "true")
  | JBool false => Some (lit "false")
  | JNumber n => Some (Number_toString E n)
  | JString s => Some s
  | JArray items =>
    (fix join (l : list json) : option jsstring :=
       match l with
       | [] => Some []
       | x :: r =>
         match match x with JNull => Some [] | _ => ToString E x end with
         | None => None
         | Some piece =>
           match r with
           | [] => Some piece
           | _ :: _ =>
             match join r with
             | Some rest => Some (piece ++ lit "," ++ rest)
             | None => None
             end
           end
         end
       end) items
  | JObject props =>
    if has_own_property (lit "toString") props then None
    else Some (lit "[object Object]")
  end.

(** The Number nearest to a non-negative integer, as a Web IDL
    [unsigned long long] becomes a Number. *)
Definition Number_of_N (n : N) : number :=
  SF2Prim (binary_normalize prec emax (Z.of_N n) 0 false).

(** [Math.round]: the nearest integral Number, a tie going towards
    positive infinity; a non-finite or already integral argument is
    returned as it is, and a result that is zero keeps the sign of the
    argument. *)
Definition Math_round (x : number) : number :=
  match Prim2SF x with
  | S754_finite s m e =>
    if (0 <=? e)%Z then x
    else
      let v := if s then Z.neg m else Z.pos m in
      let r := ((2 * v + 2 ^ (- e)) / 2 ^ (1 - e))%Z in
      if (r =? 0)%Z then (if s then (-0)%float else 0%float)
      else SF2Prim (binary_normalize prec emax r 0 false)
  | _ => x
  end.

(** [a || b]. *)
Definition or_else (a b : option json) : option json :=
  if truthy a then a else b.

(** What evaluating [throw new Error(message)] throws: an [Error] whose
    message is the argument converted to a string (the empty string for
    [undefined]), or the [TypeError] of the conversion. *)
Definition new_Error (E : Engine) (message : option json) : Thrown :=
  match message with
  | None => ErrorObj []
  | Some v =>
    match ToString E v with
    | Some s => ErrorObj s
    | None => ErrorObj (not_primitive_message E)
    end
  end.

(** The [TypeError] thrown by reading property [key] of [null]. *)
Definition TypeError_null (E : Engine) (key : jsstring) : Thrown :=
  ErrorObj (null_read_message E key).

End JS.

Import JS.

(** ** The API client: [frontend/src/lib/api.ts] *)

Module Api.

Inductive SearchMode := mode_legal | mode_user | mode_hybrid.

Definition SearchMode_literal (m : SearchMode) : jsstring :=
  match m with
  | mode_legal => lit "legal"
  | mode_user => lit "user"
  | mode_hybrid => lit "hybrid"
  end.

Record Citation := {
  dieu : jsstring;
  khoan : option jsstring;
  text : jsstring;
  score : number;
  source_type : option jsstring
}.

Record QualityMetrics := {
  grade : jsstring;
  bertscore_f1 : number;
  hallucination_score : option number;
  factuality_score : option number;
  context_relevance : option number;
  feedback : option jsstring
}.

Record ChatResponse := {
  answer : jsstring;
  sources : list Citation;
  metrics : option QualityMetrics;
  message_id : option number
}.

(** The [options] argument of [chat]; an omitted property is [None]. *)
Record ChatOptions := {
  searchMode : option SearchMode;
  rerankerEnabled : option bool
}.

Record SearchOptions := {
  search_searchMode : option SearchMode;
  topK : option number
}.

(** [API_BASE], from the build-time variable [VITE_API_URL] ([None] when
    it is not defined). *)
Definition API_BASE (VITE_API_URL : option jsstring) : jsstring :=
  match VITE_API_URL with
  | Some u => if truthy_string u then u ++ lit "/api" else lit "/api"
  | None => lit "/api"
  end.

(** The arguments of a [fetch] call.  [body] is the value handed to
    [JSON.stringify]; [None] when the call passes no body. *)
Record Request := {
  url : jsstring;
  method : jsstring;
  headers : list (jsstring * jsstring);
  body : option json
}.

(** What the client reads of a [Response]: [status], and the promise
    [response.json()] settles to. *)
Record Response := {
  status : N;
  json_body : Settled json
}.

(** [Response.ok] (Fetch standard): the status is in the range 200-299. *)
Definition ok (r : Response) : bool :=
  ((200 <=? status r) && (status r <=? 299))%N.

(** [JSON.stringify] writes a number that is not finite as [null]. *)
Definition stringify_number (n : number) : json :=
  if PrimFloat.is_nan n || PrimFloat.is_infinity n then JNull else JNumber n.

Definition chat_request (base : jsstring) (message userId sessionId : jsstring)
  (options : option ChatOptions) : Request :=
  let options := nullish options {| searchMode := None; rerankerEnabled := None |} in
  {| url := base ++ lit "/chat";
     method := lit "POST";
     headers := [(lit "Content-Type", lit "application/json")];
     body := Some (JObject [
       (lit "message", JString message);
       (lit "user_id", JString userId);
       (lit "session_id", JString sessionId);
       (lit "search_mode",
        JString (SearchMode_literal (nullish (searchMode options) mode_hybrid)));
       (lit "reranker_enabled",
        JBool (nullish (rerankerEnabled options) true))]) |}.

(** [chat] once [fetch] has resolved with [response]. *)
Definition chat_response (E : Engine) (response : Response) : Settled json :=
  if negb (ok response) then
    let error :=
      match json_body response with
      | Resolved v => v
      | Rejected _ => JObject []
      end in
    match get error (lit "detail") with
    | ReadThrows => Rejected (TypeError_null E (lit "detail"))
    | ReadValue detail =>
      Rejected (new_Error E
        (or_else detail
           (Some (JString (lit "Chat failed: " ++ decimal (status response))))))
    end
  else json_body response.

(** [chat]: [net] is the outcome of the [fetch] call for each request. *)
Definition chat (E : Engine) (base : jsstring) (net : Request -> Settled Response)
  (message userId sessionId : jsstring) (options : option ChatOptions)
  : Settled json :=
  match net (chat_request base message userId sessionId options) with
  | Rejected reason => Rejected reason
  | Resolved response => chat_response E response
  end.

Definition search_request (base : jsstring) (query userId : jsstring)
  (options : option SearchOptions) : Request :=
  let options := nullish options {| search_searchMode := None; topK := None |} in
  {| url := base ++ lit "/search";
     method := lit "POST";
     headers := [(lit "Content-Type", lit "application/json")];
     body := Some (JObject [
       (lit "query", JString query);
       (lit "user_id", JString userId);
       (lit "search_mode",
        JString (SearchMode_literal
                   (nullish (search_searchMode options) mode_hybrid)));
       (lit "top_k", stringify_number (nullish (topK options) 5%float))]) |}.

Definition search_response (response : Response) : Settled json :=
  if negb (ok response)
  then Rejected (ErrorObj (lit "Search failed: " ++ decimal (status response)))
  else json_body response.

Definition search (base : jsstring) (net : Request -> Settled Response)
  (query userId : jsstring) (options : option SearchOptions) : Settled json :=
  match net (search_request base query userId options) with
  | Rejected reason => Rejected reason
  | Resolved response => search_response response
  end.

Definition deleteSession_request (base : jsstring) (sessionId : jsstring)
  : Request :=
  {| url := base ++ lit "/chat/sessions/" ++ sessionId;
     method := lit "DELETE";
     headers := [];
     body := None |}.

Definition deleteSession_response (response : Response) : Settled unit :=
  if negb (ok response)
  then Rejected (ErrorObj (lit "Failed to delete session: "
                           ++ decimal (status response)))
  else Resolved tt.

Definition deleteSession (base : jsstring) (net : Request -> Settled Response)
  (sessionId : jsstring) : Settled unit :=
  match net (deleteSession_request base sessionId) with
  | Rejected reason => Rejected reason
  | Resolved response => deleteSession_response response
  end.

(** A [File] as the client reads it.  [size] is a count of bytes. *)
Record File := {
  name : jsstring;
  type : jsstring;
  size : N
}.

(** The events an [XMLHttpRequest] delivers to the three listeners of
    [uploadDocument].  [loaded] and [total] are the integers of the
    [ProgressEvent]; [load] carries the status and what [JSON.parse]
    makes of [responseText] ([None] when it throws). *)
Inductive XhrEvent :=
| xhr_progress (lengthComputable : bool) (loaded total : N)
| xhr_load (xhr_status : N) (parsed : option json)
| xhr_error.

(** The percentage handed to [onProgress]:
    [Math.round((e.loaded / e.total) * 100)]. *)
Definition progress_percent (loaded total : N) : number :=
  Math_round ((Number_of_N loaded / Number_of_N total) * 100)%float.

(** [uploadDocument] run over the events of its request, in order: the
    values reported to [onProgress] and what the promise settles to
    ([None] while it is pending).  A promise settles once; a [load] whose
    text does not parse throws inside the listener and settles nothing. *)
Fixpoint uploadDocument_events (onProgress : bool) (events : list XhrEvent)
  : list number * option (Settled json) :=
  match events with
  | [] => ([], None)
  | ev :: rest =>
    let (reports, settled) := uploadDocument_events onProgress rest in
    match ev with
    | xhr_progress lengthComputable loaded total =>
      (if lengthComputable && onProgress
       then progress_percent loaded total :: reports else reports,
       settled)
    | xhr_load xhr_status parsed =>
      if ((200 <=? xhr_status) && (xhr_status <? 300))%N then
        match parsed with
        | Some v => (reports, Some (Resolved v))
        | None => (reports, settled)
        end
      else (reports,
            Some (Rejected (ErrorObj (lit "Upload failed: " ++ decimal xhr_status))))
    | xhr_error =>
      (reports, Some (Rejected (ErrorObj (lit "Upload failed: Network error"))))
    end
  end.




Definition getDocuments_request (base : jsstring) (userId : jsstring)
  : Request :=
  {| url := base ++ lit "/documents?user_id=" ++ userId;
     method := lit "GET";
     headers := [];
     body := None |}.

Definition getDocuments_response (response : Response) : Settled json :=
  if negb (ok response)
  then Rejected (ErrorObj (lit "Failed to fetch documents: "
                           ++ decimal (status response)))
  else json_body response.

Definition getDocuments (base : jsstring) (net : Request -> Settled Response)
  (userId : jsstring) : Settled json :=
  match net (getDocuments_request base userId) with
  | Rejected reason => Rejected reason
  | Resolved response => getDocuments_response response
  end.




(** [limit] is the optional second argument, 20 when it is omitted; the
    template literal prints it as the engine prints a number. *)
Definition getChatHistory_request (E : Engine) (base : jsstring)
  (userId : jsstring) (limit : option number) : Request :=
  let limit := nullish limit 20%float in
  {| url := base ++ lit "/history?user_id=" ++ userId ++ lit "&limit="
            ++ Number_toString E limit;
     method := lit "GET";
     headers := [];
     body := None |}.

Definition getChatHistory_response (response : Response) : Settled json :=
  if negb (ok response)
  then Rejected (ErrorObj (lit "Failed to fetch history: "
                           ++ decimal (status response)))
  else json_body response.

Definition getChatHistory (E : Engine) (base : jsstring)
  (net : Request -> Settled Response) (userId : jsstring)
  (limit : option number) : Settled json :=
  match net (getChatHistory_request E base userId limit) with
  | Rejected reason => Rejected reason
  | Resolved response => getChatHistory_response response
  end.

Definition getSessions_request (E : Engine) (base : jsstring)
  (userId : jsstring) (limit : option number) : Request :=
  let limit := nullish limit 20%float in
  {| url := base ++ lit "/chat/sessions/" ++ userId ++ lit "?limit="
            ++ Number_toString E limit;
     method := lit "GET";
     headers := [];
     body := None |}.

Definition getSessions_response (response : Response) : Settled json :=
  if negb (ok response)
  then Rejected (ErrorObj (lit "Failed to fetch sessions: "
                           ++ decimal (status response)))
  else json_body response.

Definition getSessions (E : Engine) (base : jsstring)
  (net : Request -> Settled Response) (userId : jsstring)
  (limit : option number) : Settled json :=
  match net (getSessions_request E base userId limit) with
  | Rejected reason => Rejected reason
  | Resolved response => getSessions_response response
  end.

Definition getSessionHistory_request (base : jsstring) (sessionId : jsstring)
  : Request :=
  {| url := base ++ lit "/chat/history/" ++ sessionId;
     method := lit "GET";
     headers := [];
     body := None |}.

Definition getSessionHistory_response (response : Response) : Settled json :=
  if negb (ok response)
  then Rejected (ErrorObj (lit "Failed to fetch session history: "
                           ++ decimal (status response)))
  else json_body response.

Definition getSessionHistory (base : jsstring)
  (net : Request -> Settled Response) (sessionId : jsstring) : Settled json :=
  match net (getSessionHistory_request base sessionId) with
  | Rejected reason => Rejected reason
  | Resolved response => getSessionHistory_response response
  end.

End Api.

(** ** The chat area: [ChatArea] ([src/unnamed/part_000]) *)

Module ChatArea.

Inductive Role := role_user | role_assistant.

Definition Role_eqb (a b : Role) : bool :=
  match a, b with
  | role_user, role_user | role_assistant, role_assistant => true
  | _, _ => false
  end.

Record Message := {
  role : Role;
  content : jsstring;
  citations : option (list Api.Citation);
  grade : option jsstring;
  metrics : option Api.QualityMetrics;
  timestamp : option jsstring
}.

Record ChatAreaProps := {
  userId : jsstring;
  sessionId : jsstring;
  searchMode : Api.SearchMode;
  rerankerEnabled : bool;
  initialMessages : option (list (Role * jsstring))
}.

(** The four [useState] cells of the component. *)
Record State := {
  messages : list Message;
  input : jsstring;
  isLoading : bool;
  error : option jsstring
}.

Definition greeting : jsstring :=
  lit "Xin chào! Tôi là trợ lý pháp luật AI. Tôi có thể giúp bạn tra cứu các điều luật trong Bộ luật Hình sự Việt Nam. Hãy đặt câu hỏi pháp lý cho tôi!".

Definition plain (r : Role) (c : jsstring) : Message :=
  {| role := r; content := c; citations := None; grade := None;
     metrics := None; timestamp := None |}.

Definition initial_messages (p : ChatAreaProps) : list Message :=
  match initialMessages p with
  | Some (m :: ms) => map (fun m => plain (fst m) (snd m)) (m :: ms)
  | _ => [plain role_assistant greeting]
  end.

Definition initial (p : ChatAreaProps) : State :=
  {| messages := initial_messages p; input := []; isLoading := false;
     error := None |}.

(** One call of the imported [chat]: its four arguments. *)
Record ChatCall := {
  call_message : jsstring;
  call_userId : jsstring;
  call_sessionId : jsstring;
  call_options : Api.ChatOptions
}.

(** [handleSend] up to its [await]: the guard, the optimistic append and
    the call of [chat].  [None] is the early [return]; [now] is the
    formatted clock reading put in the message's timestamp. *)
Definition handleSend_begin (p : ChatAreaProps) (now : jsstring) (st : State)
  : option (ChatCall * State) :=
  if negb (truthy_string (trim (input st))) || isLoading st then None
  else
    let userMessage :=
      {| role := role_user; content := input st; citations := None;
         grade := None; metrics := None; timestamp := Some now |} in
    Some ({| call_message := input st;
             call_userId := userId p;
             call_sessionId := sessionId p;
             call_options :=
               {| Api.searchMode := Some (searchMode p);
                  Api.rerankerEnabled := Some (rerankerEnabled p) |} |},
          {| messages := messages st ++ [userMessage];
             input := [];
             isLoading := true;
             error := None |}).

Definition send_failed_fallback : jsstring :=
  lit "Có lỗi xảy ra khi gửi tin nhắn".

(** [handleSend] after its [await]: the rest of the [try] block on a
    resolved promise, the [catch] block on a rejected one, then
    [finally].  Every update of [messages] is a functional update, so the
    continuation is a function of the state current when it runs.  The
    resolved value is read at the type the handler declares for it,
    [ChatResponse]. *)
Definition handleSend_settle (outcome : Settled Api.ChatResponse)
  (now : jsstring) (st : State) : State :=
  match outcome with
  | Resolved response =>
    let aiMessage :=
      {| role := role_assistant;
         content := Api.answer response;
         citations := Some (Api.sources response);
         grade := option_map Api.grade (Api.metrics response);
         metrics := Api.metrics response;
         timestamp := Some now |} in
    {| messages := messages st ++ [aiMessage];
       input := input st;
       isLoading := false;
       error := error st |}
  | Rejected err =>
    {| messages := slice 0 (-1) (messages st);
       input := input st;
       isLoading := false;
       error := Some match err with
                     | ErrorObj message => message
                     | NonError => send_failed_fallback
                     end |}
  end.

(** A whole turn with nothing interleaved: [chat] is the imported
    function seen as an oracle for the outcome of each call, [t0] and
    [t1] the two clock readings. *)
Definition handleSend (p : ChatAreaProps) (t0 t1 : jsstring)
  (chat : ChatCall -> Settled Api.ChatResponse) (st : State) : State :=
  match handleSend_begin p t0 st with
  | None => st
  | Some (call, st1) => handleSend_settle (chat call) t1 st1
  end.

Definition handleRetry (st : State) : State :=
  if (0 <? length (messages st))%nat then
    match find (fun m => Role_eqb (role m) role_user) (rev (messages st)) with
    | Some lastUserMsg =>
      {| messages := messages st;
         input := content lastUserMsg;
         isLoading := isLoading st;
         error := None |}
    | None => st
    end
  else st.

(** The [onChange] of the input box: [setInput(e.target.value)]. *)
Definition setInput (value : jsstring) (st : State) : State :=
  {| messages := messages st; input := value; isLoading := isLoading st;
     error := error st |}.

(** The [onKeyDown] of the input box:
    [e.key === 'Enter' && !e.shiftKey && handleSend()]. *)
Definition onKeyDown (key : jsstring) (shiftKey : bool)
  (p : ChatAreaProps) (t0 t1 : jsstring)
  (chat : ChatCall -> Settled Api.ChatResponse) (st : State) : State :=
  if jsstring_eqb key (lit "Enter") && negb shiftKey
  then handleSend p t0 t1 chat st
  else st.

(** What the user does to a mounted chat area; a send carries the two
    clock readings and what the call of [chat], if one is made, comes
    to. *)
Inductive Event :=
| Typed (value : jsstring)
| KeyDown (key : jsstring) (shiftKey : bool) (t0 t1 : jsstring)
    (outcome : Settled Api.ChatResponse)
| SendClick (t0 t1 : jsstring) (outcome : Settled Api.ChatResponse)
| RetryClick.

Definition step (p : ChatAreaProps) (ev : Event) (st : State) : State :=
  match ev with
  | Typed value => setInput value st
  | KeyDown key shiftKey t0 t1 outcome =>
    onKeyDown key shiftKey p t0 t1 (fun _ => outcome) st
  | SendClick t0 t1 outcome => handleSend p t0 t1 (fun _ => outcome) st
  | RetryClick => handleRetry st
  end.

Definition run (p : ChatAreaProps) (trace : list Event) (st : State) : State :=
  fold_left (fun st ev => step p ev st) trace st.

End ChatArea.

(** ** The settings panel: [SettingsPanel] ([src/unnamed/part_001]) *)

Module SettingsPanel.

Record LLMProvider := {
  id : jsstring;
  name : jsstring;
  models : list jsstring;
  default_model : jsstring;
  has_api_key : bool;
  cost_per_1m_input : number;
  cost_per_1m_output : number
}.

Record TestResult := {
  success : bool;
  message : jsstring
}.

(** The [useState] cells that concern the LLM provider.  [activeProvider]
    and [activeModel] hold whatever the handlers store in them, which for
    a value read off a response body is any JSON value or [undefined]
    ([None]). *)
Record State := {
  providers : list LLMProvider;
  activeProvider : option json;
  activeModel : option json;
  loading : bool;
  apiKeyInput : jsstring;
  showKeyInput : option jsstring;
  testResult : option TestResult
}.

Definition initial : State :=
  {| providers := [];
     activeProvider := Some (JString (lit "local_ollama"));
     activeModel := Some (JString (lit "qwen2.5:3b"));
     loading := false;
     apiKeyInput := [];
     showKeyInput := None;
     testResult := None |}.

Definition API_BASE (VITE_API_URL : option jsstring) : jsstring :=
  match VITE_API_URL with
  | Some u => if truthy_string u then u else lit "http://localhost:8080"
  | None => lit "http://localhost:8080"
  end.

(** [v === s] for a string [s]. *)
Definition strict_equals_string (v : option json) (s : jsstring) : bool :=
  match v with
  | Some (JString x) => jsstring_eqb x s
  | _ => false
  end.

(** [fetchProviders] given what its request came to: the provider list
    read off the body ([data.providers || []]), or a failure that is only
    logged. *)
Definition fetchProviders (outcome : Settled (list LLMProvider)) (st : State)
  : State :=
  match outcome with
  | Resolved ps =>
    {| providers := ps; activeProvider := activeProvider st;
       activeModel := activeModel st; loading := loading st;
       apiKeyInput := apiKeyInput st; showKeyInput := showKeyInput st;
       testResult := testResult st |}
  | Rejected _ => st
  end.

(** [JSON.stringify] leaves out a property whose value is [undefined]. *)
Definition defined_props (l : list (jsstring * option json))
  : list (jsstring * json) :=
  flat_map (fun kv => match snd kv with
                      | Some v => [(fst kv, v)]
                      | None => []
                      end) l.

(** [switchProvider] up to its first [await]. *)
Definition switchProvider_begin (base : jsstring) (providerId : jsstring)
  (model : option jsstring) (st : State) : Api.Request * State :=
  ({| Api.url := base ++ lit "/api/llm/set-provider";
      Api.method := lit "POST";
      Api.headers := [(lit "Content-Type", lit "application/json")];
      Api.body := Some (JObject (defined_props [
        (lit "provider", Some (JString providerId));
        (lit "model", option_map JString model);
        (lit "api_key",
         if truthy_string (apiKeyInput st)
         then Some (JString (apiKeyInput st)) else None)])) |},
   {| providers := providers st; activeProvider := activeProvider st;
      activeModel := activeModel st; loading := true;
      apiKeyInput := apiKeyInput st; showKeyInput := showKeyInput st;
      testResult := None |}).

Definition finally_setLoading_false (st : State) : State :=
  {| providers := providers st; activeProvider := activeProvider st;
     activeModel := activeModel st; loading := false;
     apiKeyInput := apiKeyInput st; showKeyInput := showKeyInput st;
     testResult := testResult st |}.

(** [switchProvider] after [fetch] has settled to [outcome]; [refresh] is
    what the request of the nested [fetchProviders] comes to. *)
Definition switchProvider_settle (providerId : jsstring)
  (outcome : Settled Api.Response) (refresh : Settled (list LLMProvider))
  (st : State) : State :=
  finally_setLoading_false
    match outcome with
    | Rejected _ => st
    | Resolved res =>
      match Api.json_body res with
      | Rejected _ => st
      | Resolved data =>
        match get data (lit "status") with
        | ReadThrows => st
        | ReadValue v =>
          if strict_equals_string v (lit "success") then
            match get data (lit "model") with
            | ReadThrows => st
            | ReadValue model =>
              fetchProviders refresh
                {| providers := providers st;
                   activeProvider := Some (JString providerId);
                   activeModel := model;
                   loading := loading st;
                   apiKeyInput := [];
                   showKeyInput := None;
                   testResult := testResult st |}
            end
          else st
        end
      end
    end.

Definition switchProvider (base : jsstring) (providerId : jsstring)
  (model : option jsstring) (net : Api.Request -> Settled Api.Response)
  (refresh : Settled (list LLMProvider)) (st : State) : State :=
  let (request, st1) := switchProvider_begin base providerId model st in
  switchProvider_settle providerId (net request) refresh st1.

Definition needsKey (provider : LLMProvider) : bool :=
  negb (jsstring_eqb (id provider) (lit "local_ollama"))
  && negb (has_api_key provider).

(** The [onClick] of a provider's button: the request it issues, if any,
    and the state once the handler has started. *)
Definition provider_onClick (base : jsstring) (provider : LLMProvider)
  (st : State) : option Api.Request * State :=
  if needsKey provider then
    (None,
     {| providers := providers st; activeProvider := activeProvider st;
        activeModel := activeModel st; loading := loading st;
        apiKeyInput := apiKeyInput st; showKeyInput := Some (id provider);
        testResult := testResult st |})
  else
    let (request, st1) := switchProvider_begin base (id provider) None st in
    (Some request, st1).

Definition fetchActiveProvider_request (base : jsstring) : Api.Request :=
  {| Api.url := base ++ lit "/api/llm/active";
     Api.method := lit "GET";
     Api.headers := [];
     Api.body := None |}.

(** [fetchActiveProvider] given what its [fetch] settled to.  The status
    of the response is not looked at; a failure ([fetch] or [json()]
    rejecting, or a [null] body) is only logged. *)
Definition fetchActiveProvider (outcome : Settled Api.Response) (st : State)
  : State :=
  match outcome with
  | Rejected _ => st
  | Resolved res =>
    match Api.json_body res with
    | Rejected _ => st
    | Resolved data =>
      match get data (lit "provider") with
      | ReadThrows => st
      | ReadValue provider =>
        match get data (lit "model") with
        | ReadThrows => st
        | ReadValue model =>
          {| providers := providers st;
             activeProvider := provider;
             activeModel := model;
             loading := loading st;
             apiKeyInput := apiKeyInput st;
             showKeyInput := showKeyInput st;
             testResult := testResult st |}
        end
      end
    end
  end.

(** The [onChange] of the key box. *)
Definition setApiKeyInput (value : jsstring) (st : State) : State :=
  {| providers := providers st; activeProvider := activeProvider st;
     activeModel := activeModel st; loading := loading st;
     apiKeyInput := value; showKeyInput := showKeyInput st;
     testResult := testResult st |}.

(** The [onClick] of the Cancel button of the key prompt. *)
Definition cancel_onClick (st : State) : State :=
  {| providers := providers st; activeProvider := activeProvider st;
     activeModel := activeModel st; loading := loading st;
     apiKeyInput := []; showKeyInput := None;
     testResult := testResult st |}.

End SettingsPanel.

(** ** The history panel: [frontend/src/components/ChatHistory.tsx] *)

Module ChatHistory.

Record ChatSession := {
  session_id : jsstring;
  title : jsstring;
  created_at : jsstring;
  updated_at : jsstring
}.

Record State := {
  sessions : list ChatSession;
  loading : bool;
  error : option jsstring;
  deleteConfirm : option jsstring
}.

(** [deleteConfirm !== sessionId]. *)
Definition confirmed (st : State) (sessionId : jsstring) : bool :=
  match deleteConfirm st with
  | Some s => jsstring_eqb s sessionId
  | None => false
  end.

Definition delete_request (sessionId : jsstring) : Api.Request :=
  {| Api.url := lit "/api/chat/sessions/" ++ sessionId;
     Api.method := lit "DELETE";
     Api.headers := [];
     Api.body := None |}.

(** [handleDelete] up to its [await]: the first click on a session only
    arms the confirmation and issues no request. *)
Definition handleDelete_begin (sessionId : jsstring) (st : State)
  : option Api.Request * State :=
  if negb (confirmed st sessionId) then
    (None,
     {| sessions := sessions st; loading := loading st; error := error st;
        deleteConfirm := Some sessionId |})
  else (Some (delete_request sessionId), st).

(** [handleDelete] after its [await].  [onDeleteSession] is the optional
    callback of the props, seen as what calling it comes to ([None] when
    it returns); the sidebar passes none. *)
Definition handleDelete_settle (onDeleteSession : option (jsstring -> option Thrown))
  (sessionId : jsstring) (outcome : Settled Api.Response) (st : State) : State :=
  let failed (st : State) :=
    {| sessions := sessions st; loading := loading st;
       error := Some (lit "Failed to delete session");
       deleteConfirm := deleteConfirm st |} in
  match outcome with
  | Rejected _ => failed st
  | Resolved response =>
    if negb (Api.ok response) then failed st
    else
      let st1 :=
        {| sessions :=
             filter (fun s => negb (jsstring_eqb (session_id s) sessionId))
                    (sessions st);
           loading := loading st; error := error st;
           deleteConfirm := deleteConfirm st |} in
      match match onDeleteSession with
            | Some callback => callback sessionId
            | None => None
            end with
      | Some _ => failed st1
      | None =>
        {| sessions := sessions st1; loading := loading st1;
           error := error st1; deleteConfirm := None |}
      end
  end.

Definition handleDelete (onDeleteSession : option (jsstring -> option Thrown))
  (net : Api.Request -> Settled Api.Response) (sessionId : jsstring)
  (st : State) : State :=
  match handleDelete_begin sessionId st with
  | (None, st1) => st1
  | (Some request, st1) =>
    handleDelete_settle onDeleteSession sessionId (net request) st1
  end.




End ChatHistory.

(** ** The upload modal: [UploadModal] ([src/unnamed/part_003]) *)

Module UploadModal.

Inductive UploadStatus :=
| status_idle
| status_uploading
| status_success
| status_error.

Record State := {
  isDragOver : bool;
  file : option Api.File;
  progress : number;
  status : UploadStatus;
  error : option jsstring
}.

Definition initial : State :=
  {| isDragOver := false; file := None; progress := 0%float;
     status := status_idle; error := None |}.

Definition validTypes : list jsstring :=
  [lit "application/pdf";
   lit "text/plain";
   lit "application/vnd.openxmlformats-officedocument.wordprocessingml.document"].

Definition maxSize : N := 10 * 1024 * 1024.

Definition isValidFile (f : Api.File) : bool :=
  existsb (fun t => jsstring_eqb t (Api.type f)) validTypes
  && (Api.size f <=? maxSize)%N.

Definition rejected_message : jsstring :=
  lit "Chỉ hỗ trợ file PDF, TXT, DOCX (tối đa 10MB)".

Definition handleDragOver (st : State) : State :=
  {| isDragOver := true; file := file st; progress := progress st;
     status := status st; error := error st |}.

Definition handleDragLeave (st : State) : State :=
  {| isDragOver := false; file := file st; progress := progress st;
     status := status st; error := error st |}.

(** The common tail of [handleDrop] and [handleFileSelect]; [picked] is
    the first file of the event, [None] when there is none. *)
Definition accept_or_reject (picked : option Api.File) (st : State) : State :=
  match picked with
  | Some f =>
    if isValidFile f then
      {| isDragOver := isDragOver st; file := Some f; progress := progress st;
         status := status st; error := None |}
    else
      {| isDragOver := isDragOver st; file := file st; progress := progress st;
         status := status st; error := Some rejected_message |}
  | None =>
    {| isDragOver := isDragOver st; file := file st; progress := progress st;
       status := status st; error := Some rejected_message |}
  end.

Definition handleDrop (droppedFile : option Api.File) (st : State) : State :=
  accept_or_reject droppedFile (handleDragLeave st).

Definition handleFileSelect (selectedFile : option Api.File) (st : State)
  : State :=
  accept_or_reject selectedFile st.

Definition handleReset (st : State) : State :=
  {| isDragOver := isDragOver st; file := None; progress := 0%float;
     status := status_idle; error := None |}.

(** What a handler asks of the world outside the component state. *)
Inductive Effect :=
| call_onUploadComplete (result : json)
| setTimeout_reset_and_close (delay : N).

(** [handleUpload] up to its [await]: [None] is the early [return],
    otherwise the file handed to [uploadDocument]. *)
Definition handleUpload_begin (st : State) : option (Api.File * State) :=
  match file st with
  | None => None
  | Some f =>
    Some (f, {| isDragOver := isDragOver st; file := file st;
                progress := 0%float; status := status_uploading;
                error := None |})
  end.

Definition setProgress (prog : number) (st : State) : State :=
  {| isDragOver := isDragOver st; file := file st; progress := prog;
     status := status st; error := error st |}.

Definition upload_failed_fallback : jsstring := lit "Upload thất bại".

(** [handleUpload] once the promise of [uploadDocument] has settled. *)
Definition handleUpload_settle (outcome : Settled json) (st : State)
  : State * list Effect :=
  match outcome with
  | Resolved result =>
    ({| isDragOver := isDragOver st; file := file st; progress := progress st;
        status := status_success; error := error st |},
     [call_onUploadComplete result; setTimeout_reset_and_close 2000])
  | Rejected err =>
    ({| isDragOver := isDragOver st; file := file st; progress := progress st;
        status := status_error;
        error := Some match err with
                      | ErrorObj message => message
                      | NonError => upload_failed_fallback
                      end |},
     [])
  end.

(** A whole upload: the request delivers [events]; each reported
    percentage is stored by the progress callback, and the rest of the
    handler runs when (if) the promise settles. *)
Definition handleUpload (events : list Api.XhrEvent) (st : State)
  : State * list Effect :=
  match handleUpload_begin st with
  | None => (st, [])
  | Some (_, st1) =>
    let (reports, settled) := Api.uploadDocument_events true events in
    let st2 := fold_left (fun s prog => setProgress prog s) reports st1 in
    match settled with
    | Some outcome => handleUpload_settle outcome st2
    | None => (st2, [])
    end
  end.

(** The modal as a transition system: its state and the number of
    close timers armed and not yet fired. *)
Record Modal := {
  ui : State;
  timers : nat
}.

Inductive Event :=
| DragOver
| DragLeave
| Drop (droppedFile : option Api.File)
| FileSelect (selectedFile : option Api.File)
| Upload (events : list Api.XhrEvent)
| Reset
| TimerFires.

Definition armed (effects : list Effect) : nat :=
  length (filter (fun e => match e with
                           | setTimeout_reset_and_close _ => true
                           | _ => false
                           end) effects).

Definition step (ev : Event) (m : Modal) : Modal :=
  match ev with
  | DragOver => {| ui := handleDragOver (ui m); timers := timers m |}
  | DragLeave => {| ui := handleDragLeave (ui m); timers := timers m |}
  | Drop f => {| ui := handleDrop f (ui m); timers := timers m |}
  | FileSelect f => {| ui := handleFileSelect f (ui m); timers := timers m |}
  | Upload events =>
    let (st, effects) := handleUpload events (ui m) in
    {| ui := st; timers := timers m + armed effects |}
  | Reset => {| ui := handleReset (ui m); timers := timers m |}
  | TimerFires =>
    match timers m with
    | O => m
    | S n => {| ui := handleReset (ui m); timers := n |}
    end
  end.

Definition run (trace : list Event) (m : Modal) : Modal :=
  fold_left (fun m ev => step ev m) trace m.

End UploadModal.

(** ** The toasts: [ToastProvider] ([src/unnamed/part_002]) *)

Module Toast.

Inductive ToastType := toast_success | toast_error | toast_info.

Record Toast := {
  id : jsstring;
  type : ToastType;
  message : jsstring;
  duration : option number
}.

(** [addToast]; [randomUUID] is what [crypto.randomUUID()] returns, and
    an omitted [duration] is 5000. *)
Definition addToast (randomUUID : jsstring) (type : ToastType)
  (message : jsstring) (duration : option number) (toasts : list Toast)
  : list Toast :=
  toasts ++ [{| id := randomUUID; type := type; message := message;
                duration := Some (nullish duration 5000%float) |}].

Definition removeToast (id0 : jsstring) (toasts : list Toast) : list Toast :=
  filter (fun t => negb (jsstring_eqb (id t) id0)) toasts.

End Toast.

(** ** The page: [MainLayoutContent] ([src/unnamed/part_005]) *)

Module MainLayout.

Record Document := {
  doc_id : jsstring;
  file_name : jsstring;
  chunks : number
}.



Record State := {
  userId : jsstring;
  sessionId : jsstring;
  sidebarCollapsed : bool;
  uploadModalOpen : bool;
  searchMode : Api.SearchMode;
  rerankerEnabled : bool;
  threshold : number;
  documents : list Document;
  loadedMessages : list (ChatArea.Role * jsstring)
}.

(** A call of [addToast(type, message)]. *)
Record ToastCall := {
  toast_type : Toast.ToastType;
  toast_message : jsstring
}.

(** The initialiser of [userId]: [stored] is what
    [localStorage.getItem('legal_rag_user_id')] returns ([None] for
    [null]); the result is the id and the value written back under the
    same key, if any. *)
Definition initial_userId (stored : option jsstring) (randomUUID : jsstring)
  : jsstring * option jsstring :=
  match stored with
  | Some s => if truthy_string s then (s, None) else (randomUUID, Some randomUUID)
  | None => (randomUUID, Some randomUUID)
  end.

Definition initial (userId sessionId : jsstring) : State :=
  {| userId := userId; sessionId := sessionId; sidebarCollapsed := false;
     uploadModalOpen := false; searchMode := Api.mode_hybrid;
     rerankerEnabled := true; threshold := 0.5%float; documents := [];
     loadedMessages := [] |}.

(** [fetchDocuments] given what [getDocuments] settled to, its value
    read at the declared type ([None] when [documents] is missing). *)
Definition fetchDocuments (outcome : Settled (option (list Document)))
  (st : State) : State :=
  match outcome with
  | Resolved ds =>
    {| userId := userId st; sessionId := sessionId st;
       sidebarCollapsed := sidebarCollapsed st;
       uploadModalOpen := uploadModalOpen st; searchMode := searchMode st;
       rerankerEnabled := rerankerEnabled st; threshold := threshold st;
       documents := nullish ds [];
       loadedMessages := loadedMessages st |}
  | Rejected _ => st
  end.

Definition handleNewChat (randomUUID : jsstring) (st : State)
  : State * list ToastCall :=
  ({| userId := userId st; sessionId := randomUUID;
      sidebarCollapsed := sidebarCollapsed st;
      uploadModalOpen := uploadModalOpen st; searchMode := searchMode st;
      rerankerEnabled := rerankerEnabled st; threshold := threshold st;
      documents := documents st;
      loadedMessages := [] |},
   [{| toast_type := Toast.toast_info;
       toast_message := lit "Phiên chat mới đã được tạo" |}]).

(** The global [keydown] listener. *)
Definition handleKeyDown (ctrlKey : bool) (key : jsstring)
  (randomUUID : jsstring) (st : State) : State * list ToastCall :=
  if ctrlKey && jsstring_eqb key (lit "k") then handleNewChat randomUUID st
  else (st, []).


Definition handleUploadComplete (E : Engine) (result : Document) (st : State)
  : State * list ToastCall :=
  ({| userId := userId st; sessionId := sessionId st;
      sidebarCollapsed := sidebarCollapsed st;
      uploadModalOpen := uploadModalOpen st; searchMode := searchMode st;
      rerankerEnabled := rerankerEnabled st; threshold := threshold st;
      documents := documents st ++ [result];
      loadedMessages := loadedMessages st |},
   [{| toast_type := Toast.toast_success;
       toast_message :=
         lit "Đã upload " ++ [34%N] ++ file_name result ++ [34%N]
         ++ lit " (" ++ Number_toString E (chunks result) ++ lit " chunks)" |}]).

(** [handleDeleteDocument] given what [deleteDocument] settled to. *)
Definition handleDeleteDocument (docId : jsstring) (outcome : Settled unit)
  (st : State) : State * list ToastCall :=
  match outcome with
  | Resolved _ =>
    ({| userId := userId st; sessionId := sessionId st;
        sidebarCollapsed := sidebarCollapsed st;
        uploadModalOpen := uploadModalOpen st; searchMode := searchMode st;
        rerankerEnabled := rerankerEnabled st; threshold := threshold st;
        documents :=
          filter (fun d => negb (jsstring_eqb (doc_id d) docId)) (documents st);
        loadedMessages := loadedMessages st |},
     [{| toast_type := Toast.toast_success;
         toast_message := lit "Đã xóa tài liệu" |}])
  | Rejected _ =>
    (st, [{| toast_type := Toast.toast_error;
             toast_message := lit "Không thể xóa tài liệu" |}])
  end.


End MainLayout.

(** ** The dashboard: [QualityDashboard]
    ([src/frontend/src/components/QualityDashboard.tsx]) *)

Module QualityDashboard.

(** The cells the status poll writes.  [status] holds the resolved value
    of [checkStatus] as it came; [lastUpdated] is the time value of the
    [Date]. *)
Record State := {
  status : option json;
  loading : bool;
  error : option jsstring;
  lastUpdated : option N
}.

Definition initial : State :=
  {| status := None; loading := true; error := None; lastUpdated := None |}.



End QualityDashboard.


(** ** Notions used in the statements *)

(** The value [chat] inspects on a non-2xx response: the parsed body, or
    [{}] when the body does not parse. *)
Definition error_body (r : Api.Response) : json :=
  match Api.json_body r with
  | Resolved v => v
  | Rejected _ => JObject []
  end.

(** The [detail] field of the body, when the body is an object that has
    one. *)
Definition detail_of (r : Api.Response) : option json :=
  match error_body r with
  | JObject props => own_property (lit "detail") props
  | _ => None
  end.

(** A property of the body of a request. *)
Definition request_field (key : string) (r : Api.Request) : option json :=
  match Api.body r with
  | Some (JObject props) => own_property (lit key) props
  | _ => None
  end.

(** [options.f] once the default [{}] has been applied. *)
Definition option_field {O A} (f : O -> option A) (o : option O) : option A :=
  match o with
  | Some o' => f o'
  | None => None
  end.

(** A switch succeeded: [fetch] resolved, the body parsed, and its
    [status] is the string ['success']. *)
Definition reports_success (outcome : Settled Api.Response) : Prop :=
  exists res data,
    outcome = Resolved res
    /\ Api.json_body res = Resolved data
    /\ get data (lit "status") = ReadValue (Some (JString (lit "success"))).

(** No session of the displayed list has this id. *)
Definition absent (sessionId : jsstring) (st : ChatHistory.State) : Prop :=
  ~ In sessionId (map ChatHistory.session_id (ChatHistory.sessions st)).

Definition docx_type : jsstring :=
  lit "application/vnd.openxmlformats-officedocument.wordprocessingml.document".

(** The file a modal holds has passed [isValidFile]. *)
Definition holds_valid_file (m : UploadModal.Modal) : Prop :=
  forall f,
    UploadModal.file (UploadModal.ui m) = Some f ->
    UploadModal.isValidFile f = true.

(** An event that may clear the held file: a click on the reset button,
    or an upload that succeeds (it arms the timer that resets). *)
Definition may_clear (ev : UploadModal.Event) : bool :=
  match ev with
  | UploadModal.Reset => true
  | UploadModal.Upload events =>
    match snd (Api.uploadDocument_events true events) with
    | Some (Resolved _) => true
    | _ => false
    end
  | _ => false
  end.

(** The [(loaded, total)] pairs of the progress events that are
    reported: those whose length is computable. *)
Definition computable_progress (events : list Api.XhrEvent) : list (N * N) :=
  flat_map (fun ev => match ev with
                      | Api.xhr_progress true loaded total => [(loaded, total)]
                      | _ => []
                      end) events.

(** [a <= b] on numbers. *)
Definition float_le (a b : number) : Prop := (a <=? b)%float = true.

(** ** Values of binary64 numbers *)

Module Binary64.

Local Open Scope Q_scope.

(** Powers of two as rationals. *)
Definition pow2 (e : Z) : Q := 2 ^ e.

(** The value of a mantissa at an exponent. *)
Definition F2Q (m e : Z) : Q := inject_Z m * pow2 e.

(** The value of a finite number. *)
Definition SF2Q (f : spec_float) : Q :=
  match f with
  | S754_finite false m e => F2Q (Zpos m) e
  | S754_finite true m e => - F2Q (Zpos m) e
  | _ => 0
  end.

(** Where a positive rational [x] lies with respect to the grid of step
    [2^e]: at the point [m], or strictly between [m] and [m+1] and below,
    at or above the middle. *)
Definition located (x : Q) (m e : Z) (l : location) : Prop :=
  match l with
  | loc_Exact => x == F2Q m e
  | loc_Inexact Lt => F2Q m e < x /\ x < F2Q m e + (1 # 2) * pow2 e
  | loc_Inexact Eq => x == F2Q m e + (1 # 2) * pow2 e
  | loc_Inexact Gt => F2Q m e + (1 # 2) * pow2 e < x /\ x < F2Q m e + pow2 e
  end.

(** [v] is [x] rounded to 53 significant digits, to nearest, ties to
    even. *)
Definition rounds (x v : Q) : Prop :=
  exists (m : Z) (l : location) (e0 : Z),
    located x m e0 l
    /\ (2 ^ 52 <= m < 2 ^ 53)%Z
    /\ v == F2Q (round_nearest_even m l) e0.

(** A positive normal number in canonical form: a mantissa of exactly 53
    digits, an exponent between [lo] and [hi], and its value. *)
Definition normal (f : spec_float) (v : Q) (lo hi : Z) : Prop :=
  exists (M : positive) (e : Z),
    f = S754_finite false M e
    /\ (2 ^ 52 <= Zpos M < 2 ^ 53)%Z
    /\ v == F2Q (Zpos M) e
    /\ (lo <= e <= hi)%Z.

(** A number in canonical form with its own value. *)
Definition canonical (f : spec_float) (lo hi : Z) : Prop :=
  normal f (SF2Q f) lo hi.

(** The integer [Math.round] computes from a negative exponent. *)
Definition round_half_up (m : positive) (e : Z) : Z :=
  ((2 * Zpos m + 2 ^ (- e)) / 2 ^ (1 - e))%Z.

(** The product that [Math.round] receives, for [0 < loaded <= total]. *)
Definition scaled (loaded total : positive) : float :=
  (Number_of_N (Npos loaded) / Number_of_N (Npos total) * 100)%float.

(** The integer percentage: the value [Math.round] returns is the
    conversion of this integer. *)
Definition percent (loaded total : N) : Z :=
  match Prim2SF (Number_of_N loaded / Number_of_N total * 100)%float with
  | S754_finite false m e => round_half_up m e
  | _ => 0%Z
  end.

End Binary64.

(** ** Sample data of the examples *)

(** The engine of the examples: V8's wording of the [TypeError]s; the
    examples convert no number to a string. *)
Definition sample_engine : Engine :=
  {| Number_toString := fun _ => lit "NaN";
     null_read_message := fun key =>
       lit "Cannot read properties of null (reading '" ++ key ++ lit "')";
     not_primitive_message := lit "Cannot convert object to primitive value" |}.

Definition sample_props : ChatArea.ChatAreaProps :=
  {| ChatArea.userId := lit "u-1"; ChatArea.sessionId := lit "s-1";
     ChatArea.searchMode := Api.mode_hybrid; ChatArea.rerankerEnabled := true;
     ChatArea.initialMessages := None |}.

(** A fresh chat area in which [text] has been typed. *)
Definition typed (text : string) : ChatArea.State :=
  {| ChatArea.messages := ChatArea.initial_messages sample_props;
     ChatArea.input := lit text;
     ChatArea.isLoading := false; ChatArea.error := None |}.

Definition openai : SettingsPanel.LLMProvider :=
  {| SettingsPanel.id := lit "openai";
     SettingsPanel.name := lit "OpenAI";
     SettingsPanel.models := [lit "gpt-4o-mini"];
     SettingsPanel.default_model := lit "gpt-4o-mini";
     SettingsPanel.has_api_key := false;
     SettingsPanel.cost_per_1m_input := 0.25%float;
     SettingsPanel.cost_per_1m_output := 0.5%float |}.

Definition refused : Api.Response :=
  {| Api.status := 400;
     Api.json_body := Resolved (JObject [(lit "detail", JString (lit "API key required"))]) |}.

(** A history of one session, its delete already armed. *)
Definition one_session : ChatHistory.State :=
  {| ChatHistory.sessions :=
       [{| ChatHistory.session_id := lit "s-1";
           ChatHistory.title := lit "Tội trộm cắp tài sản";
           ChatHistory.created_at := lit "2025-01-01T09:00:00";
           ChatHistory.updated_at := lit "2025-01-01T09:05:00" |}];
     ChatHistory.loading := false;
     ChatHistory.error := None;
     ChatHistory.deleteConfirm := Some (lit "s-1") |}.

(** A network that answers every request with [status] and an empty
    object. *)
Definition answers (status : N) : Api.Request -> Settled Api.Response :=
  fun _ => Resolved {| Api.status := status; Api.json_body := Resolved (JObject []) |}.

Definition big_pdf : Api.File :=
  {| Api.name := lit "bo-luat.pdf"; Api.type := lit "application/pdf";
     Api.size := 11 * 1024 * 1024 |}.

Definition small_png : Api.File :=
  {| Api.name := lit "scan.png"; Api.type := lit "image/png";
     Api.size := 2048 |}.

Definition contract_pdf : Api.File :=
  {| Api.name := lit "hop-dong.pdf"; Api.type := lit "application/pdf";
     Api.size := 4096 |}.

(** An idle modal that holds [f]. *)
Definition held (f : Api.File) : UploadModal.State :=
  {| UploadModal.isDragOver := false; UploadModal.file := Some f;
     UploadModal.progress := 0%float;
     UploadModal.status := UploadModal.status_idle;
     UploadModal.error := None |}.

Definition sample_upload : list Api.XhrEvent :=
  [Api.xhr_progress true 0 4096; Api.xhr_progress true 1024 4096;
   Api.xhr_progress false 0 0; Api.xhr_progress true 4096 4096;
   Api.xhr_load 200 (Some (JObject []))].

(** ** Notions used in the further properties *)

(** A code unit that [trim] does not strip. *)
Definition visible (c : code_unit) : Prop := is_white_space c = false.

(** The roles of [n] complete turns: a question, then its answer. *)
Definition turns (n : nat) : list ChatArea.Role :=
  concat (repeat [ChatArea.role_user; ChatArea.role_assistant] n).

(** The sends of a trace whose request resolved. *)
Definition answered (trace : list ChatArea.Event) : nat :=
  length (filter (fun ev => match ev with
                            | ChatArea.SendClick _ _ (Resolved _) => true
                            | ChatArea.KeyDown _ _ _ _ (Resolved _) => true
                            | _ => false
                            end) trace).

(** What one event of an upload, taken alone, settles the promise to;
    [None] when it settles nothing. *)
Definition settlement (ev : Api.XhrEvent) : option (Settled json) :=
  snd (Api.uploadDocument_events true [ev]).

(** A chat area between two events: no request is in flight, and the
    messages are those it was mounted with followed by at most [k]
    complete turns. *)
Definition at_rest (p : ChatArea.ChatAreaProps) (k : nat)
  (st : ChatArea.State) : Prop :=
  ChatArea.isLoading st = false
  /\ exists added n,
       ChatArea.messages st = ChatArea.initial_messages p ++ added
       /\ map ChatArea.role added = turns n
       /\ (n <= k)%nat.



(** ** Sample data of the further properties *)

Definition sample_answer : Api.ChatResponse :=
  {| Api.answer := lit "Điều 173 quy định về tội trộm cắp tài sản.";
     Api.sources := [];
     Api.metrics := None;
     Api.message_id := None |}.

Definition one_toast : list Toast.Toast :=
  [{| Toast.id := lit "t-1"; Toast.type := Toast.toast_info;
      Toast.message := lit "Phiên chat mới đã được tạo";
      Toast.duration := Some 5000%float |}].

Definition uploaded : MainLayout.Document :=
  {| MainLayout.doc_id := lit "d-1";
     MainLayout.file_name := lit "hop-dong.pdf";
     MainLayout.chunks := 12%float |}.


(** The call [handleSend] makes for the sample question. *)
Definition sample_call : ChatArea.ChatCall :=
  {| ChatArea.call_message := lit "Điều 173 quy định gì?";
     ChatArea.call_userId := lit "u-1";
     ChatArea.call_sessionId := lit "s-1";
     ChatArea.call_options :=
       {| Api.searchMode := Some Api.mode_hybrid;
          Api.rerankerEnabled := Some true |} |}.


(** * Properties *)

(** ** JavaScript helpers *)

Lemma slice_drop_last {A} (l : list A) (x : A) : slice 0 (-1) (l ++ [x]) = l.
Proof.
  unfold slice, relative_index.
  rewrite length_app; cbn [length].
  replace (0 <? 0)%Z with false by reflexivity.
  replace (-1 <? 0)%Z with true by reflexivity.
  rewrite Z.min_l by lia. cbn [Z.to_nat skipn].
  replace (Z.to_nat _) with (length l) by lia.
  rewrite firstn_app, Nat.sub_diag, firstn_all. cbn. apply app_nil_r.
Qed.

Example lit_ascii : lit "hybrid" = [104; 121; 98; 114; 105; 100]%N.
Proof. reflexivity. Qed.

Example lit_vietnamese : lit "Có lỗi" = [67; 243; 32; 108; 7895; 105]%N.
Proof. reflexivity. Qed.

Example trim_example : trim (lit "  a b	 ") = lit "a b".
Proof. reflexivity. Qed.

Lemma jsstring_eqb_eq (a b : jsstring) : jsstring_eqb a b = true <-> a = b.
Proof.
  revert b. induction a as [|x a IH]; intros [|y b]; cbn; split;
    try congruence; try discriminate.
  - intros H. apply andb_prop in H as [Hx Hr].
    apply N.eqb_eq in Hx. apply IH in Hr. congruence.
  - intros H. injection H as -> ->. apply andb_true_intro. split.
    + apply N.eqb_refl.
    + now apply IH.
Qed.

Lemma jsstring_eqb_refl (a : jsstring) : jsstring_eqb a a = true.
Proof. now apply jsstring_eqb_eq. Qed.

(** ** The chat area *)

Import ChatArea.

Lemma handleSend_begin_some (p : ChatAreaProps) (now : jsstring) (st : State)
  (call : ChatCall) (st1 : State) :
  handleSend_begin p now st = Some (call, st1) ->
  trim (input st) <> [] /\ isLoading st = false
  /\ call_message call = input st
  /\ messages st1 =
     messages st ++ [{| role := role_user; content := input st;
                        citations := None; grade := None; metrics := None;
                        timestamp := Some now |}]
  /\ input st1 = [] /\ isLoading st1 = true /\ error st1 = None.
Proof.
  unfold handleSend_begin.
  destruct (trim (input st)) as [|c r] eqn:Ht; cbn [truthy_string negb orb];
    [discriminate|].
  destruct (isLoading st); [discriminate|].
  intros H; injection H as <- <-. cbn. repeat split; congruence.
Qed.

Lemma handleSend_begin_none (p : ChatAreaProps) (now : jsstring) (st : State) :
  handleSend_begin p now st = None <->
  trim (input st) = [] \/ isLoading st = true.
Proof.
  unfold handleSend_begin.
  destruct (trim (input st)) as [|c r]; cbn [truthy_string negb orb].
  - split; auto.
  - destruct (isLoading st); split; auto; try discriminate.
    intros [H|H]; discriminate.
Qed.

Lemma handleSend_rejected
  (p : ChatAreaProps) (t0 t1 : jsstring)
  (chat : ChatCall -> Settled Api.ChatResponse) (st : State)
  (call : ChatCall) (st1 : State) (e : Thrown) :
  handleSend_begin p t0 st = Some (call, st1) ->
  chat call = Rejected e ->
  handleSend p t0 t1 chat st =
  {| messages := messages st; input := []; isLoading := false;
     error := Some match e with
                   | ErrorObj message => message
                   | NonError => send_failed_fallback
                   end |}.
Proof.
  intros Hb Hc.
  destruct (handleSend_begin_some _ _ _ _ _ Hb) as (_ & _ & _ & Hm & Hi & _).
  unfold handleSend. rewrite Hb, Hc. cbn. rewrite Hm, Hi, slice_drop_last.
  reflexivity.
Qed.

(** C1.  A chat turn whose request rejects leaves the message list exactly
    as it was before the turn: the user message appended optimistically
    (one more entry while the request is in flight) is removed again by
    the failure handler and no assistant message is added. *)
Theorem failed_turn_leaves_no_trace
  (p : ChatAreaProps) (t0 t1 : jsstring)
  (chat : ChatCall -> Settled Api.ChatResponse) (st : State)
  (call : ChatCall) (st1 : State) (e : Thrown) :
  handleSend_begin p t0 st = Some (call, st1) ->
  chat call = Rejected e ->
  length (messages st1) = S (length (messages st))
  /\ messages (handleSend p t0 t1 chat st) = messages st.
Proof.
  intros Hb Hc. split.
  - destruct (handleSend_begin_some _ _ _ _ _ Hb) as (_ & _ & _ & Hm & _).
    rewrite Hm, length_app. cbn. lia.
  - now rewrite (handleSend_rejected p t0 t1 chat st call st1 e Hb Hc).
Qed.

Lemma failed_turn_leaves_no_trace_witness :
  messages (handleSend sample_props (lit "09:30") (lit "09:31")
              (fun _ => Rejected (ErrorObj (lit "Chat failed: 500")))
              (typed "Điều 173 quy định gì?"))
  = [plain role_assistant greeting].
Proof.
  refine (proj2 (failed_turn_leaves_no_trace sample_props (lit "09:30")
                   (lit "09:31")
                   (fun _ => Rejected (ErrorObj (lit "Chat failed: 500")))
                   (typed "Điều 173 quy định gì?") _ _ _ _ _)).
  - vm_compute. reflexivity.
  - reflexivity.
Defined.

(** C9.  When the input is empty after trimming, or a request is already
    in flight, [handleSend] returns before it calls [chat] and leaves the
    state alone; conversely every call of [chat] it makes carries a
    message that is non-empty after trimming. *)
Theorem handleSend_never_sends_blank
  (p : ChatAreaProps) (t0 : jsstring) (st : State) :
  (trim (input st) = [] \/ isLoading st = true ->
   handleSend_begin p t0 st = None
   /\ forall t1 chat, handleSend p t0 t1 chat st = st)
  /\ (forall call st1,
        handleSend_begin p t0 st = Some (call, st1) ->
        trim (call_message call) <> []).
Proof.
  split.
  - intros H. apply (handleSend_begin_none p t0) in H. split; [exact H|].
    intros t1 chat. unfold handleSend. now rewrite H.
  - intros call st1 H.
    destruct (handleSend_begin_some _ _ _ _ _ H) as (Ht & _ & Hm & _).
    now rewrite Hm.
Qed.

Lemma handleSend_never_sends_blank_witness :
  handleSend_begin sample_props (lit "09:30") (typed "  	 ") = None
  /\ trim (lit " Điều 173 ") <> [].
Proof.
  split.
  - apply (proj1 (handleSend_never_sends_blank sample_props (lit "09:30")
                    (typed "  	 "))).
    left. vm_compute. reflexivity.
  - eapply (proj2 (handleSend_never_sends_blank sample_props (lit "09:30")
                     (typed " Điều 173 ")) {| call_message := lit " Điều 173 ";
                       call_userId := lit "u-1"; call_sessionId := lit "s-1";
                       call_options := {| Api.searchMode := Some Api.mode_hybrid;
                                          Api.rerankerEnabled := Some true |} |}
                   _).
    vm_compute. reflexivity.
Defined.

Lemma handleRetry_after_failed_turn
  (p : ChatAreaProps) (t0 t1 : jsstring)
  (chat : ChatCall -> Settled Api.ChatResponse) (st : State)
  (call : ChatCall) (st1 : State) (e : Thrown) :
  handleSend_begin p t0 st = Some (call, st1) ->
  chat call = Rejected e ->
  input (handleRetry (handleSend p t0 t1 chat st)) =
  match find (fun m => Role_eqb (role m) role_user) (rev (messages st)) with
  | Some previous => content previous
  | None => []
  end.
Proof.
  intros Hb Hc.
  rewrite (handleSend_rejected p t0 t1 chat st call st1 e Hb Hc).
  unfold handleRetry. cbn [messages input].
  destruct (messages st) as [|m ms]; [reflexivity|].
  cbn [length Nat.ltb Nat.leb].
  destruct (find _ (rev (m :: ms))); reflexivity.
Qed.

(** C4, on the code.  The first turn of a conversation fails: the
    rollback has removed the user message, so [handleRetry] finds no user
    message and leaves the input empty and the error in place; the
    question that failed is not put back. *)
Theorem retry_after_first_failed_turn_restores_nothing :
  let question := lit "Điều 173 quy định gì?" in
  let failed :=
    handleSend sample_props (lit "09:30") (lit "09:31")
      (fun _ => Rejected (ErrorObj (lit "Chat failed: 500")))
      (typed "Điều 173 quy định gì?") in
  input (typed "Điều 173 quy định gì?") = question
  /\ messages failed = [plain role_assistant greeting]
  /\ input (handleRetry failed) = []
  /\ error (handleRetry failed) = Some (lit "Chat failed: 500").
Proof. vm_compute. repeat split. Qed.

(** C4, on the code, with an earlier turn in the list: the retry puts
    back the question of that earlier turn, not the one that failed. *)
Theorem retry_after_later_failed_turn_restores_older_input :
  let st :=
    {| messages := [plain role_assistant greeting;
                    plain role_user (lit "first question");
                    plain role_assistant (lit "first answer")];
       input := lit "second question"; isLoading := false; error := None |} in
  let failed :=
    handleSend sample_props (lit "09:30") (lit "09:31")
      (fun _ => Rejected (ErrorObj (lit "Chat failed: 500"))) st in
  input (handleRetry failed) = lit "first question".
Proof. vm_compute. reflexivity. Qed.

(** ** The API client *)

Lemma chat_response_not_null (E : Engine) (r : Api.Response) :
  Api.ok r = false -> error_body r <> JNull ->
  Api.chat_response E r =
  Rejected (new_Error E
    (or_else (detail_of r)
       (Some (JString (lit "Chat failed: " ++ decimal (Api.status r)))))).
Proof.
  intros Hok Hnull. unfold Api.chat_response, detail_of, error_body in *.
  rewrite Hok. cbn [negb].
  destruct (Api.json_body r) as [v|e]; [|reflexivity].
  destruct v; try reflexivity. congruence.
Qed.

(** C3 as written fails: a 400 response whose body has a [detail] that is
    present and parses, the empty string, is reported with the generic
    message, not with the detail; and a [detail] that is a list of
    objects, as a validation error carries, is reported as
    [[object Object]]. *)
Lemma chat_empty_detail_is_not_surfaced :
  let r := {| Api.status := 400;
              Api.json_body := Resolved (JObject [(lit "detail", JString [])]) |} in
  let r' := {| Api.status := 422;
               Api.json_body :=
                 Resolved (JObject [(lit "detail",
                   JArray [JObject [(lit "msg", JString (lit "field required"))]])]) |} in
  Api.ok r = false
  /\ detail_of r = Some (JString [])
  /\ Api.chat_response sample_engine r = Rejected (ErrorObj (lit "Chat failed: 400"))
  /\ Api.chat_response sample_engine r <> Rejected (ErrorObj [])
  /\ Api.chat_response sample_engine r' = Rejected (ErrorObj (lit "[object Object]")).
Proof. cbv zeta. repeat split. vm_compute. discriminate. Qed.

(** A body that is the JSON value [null] parses, has no [detail], and
    makes [chat] throw the engine's [TypeError] for the property read. *)
Example chat_null_body :
  Api.chat_response sample_engine
    {| Api.status := 500; Api.json_body := Resolved JNull |}
  = Rejected (ErrorObj (lit "Cannot read properties of null (reading 'detail')")).
Proof. reflexivity. Qed.

(** C3, amended.  On a non-2xx response [chat] always throws and never
    returns a response value.  Unless the body is the JSON value [null]:
    a truthy [detail] becomes the error message, converted to a string,
    so a non-empty string [detail] is surfaced verbatim; and when the
    body does not parse, or its [detail] is absent or falsy (the empty
    string, for one), the message is [Chat failed: ] followed by the
    status. *)
Theorem chat_non_2xx_throws (E : Engine) (r : Api.Response) :
  Api.ok r = false ->
  (forall v, Api.chat_response E r <> Resolved v)
  /\ (error_body r <> JNull ->
      (forall v s, detail_of r = Some v -> truthy (Some v) = true ->
         ToString E v = Some s ->
         Api.chat_response E r = Rejected (ErrorObj s))
      /\ (forall d, detail_of r = Some (JString d) -> d <> [] ->
            Api.chat_response E r = Rejected (ErrorObj d))
      /\ (truthy (detail_of r) = false ->
          Api.chat_response E r =
          Rejected (ErrorObj (lit "Chat failed: " ++ decimal (Api.status r))))).
Proof.
  intros Hok. split.
  - intros v. unfold Api.chat_response. rewrite Hok. cbn [negb].
    destruct (get _ _); discriminate.
  - intros Hnull. rewrite (chat_response_not_null E r Hok Hnull).
    unfold or_else, new_Error. repeat split.
    + intros v s Hd Ht Hs. now rewrite Hd, Ht, Hs.
    + intros d Hd Hne. rewrite Hd. destruct d; [congruence|reflexivity].
    + intros Hf. now rewrite Hf.
Qed.

Lemma chat_non_2xx_throws_witness :
  Api.chat_response sample_engine
    {| Api.status := 422;
       Api.json_body := Resolved (JObject [(lit "detail", JString (lit "message is required"))]) |}
  = Rejected (ErrorObj (lit "message is required"))
  /\ Api.chat_response sample_engine
       {| Api.status := 502;
          Api.json_body := Rejected (ErrorObj (lit "Unexpected token < in JSON")) |}
     = Rejected (ErrorObj (lit "Chat failed: 502")).
Proof.
  split.
  - refine (proj1 (proj2 (proj2 (chat_non_2xx_throws sample_engine _ _) _))
              (lit "message is required") _ _).
    + reflexivity.
    + discriminate.
    + reflexivity.
    + discriminate.
  - refine (proj2 (proj2 (proj2 (chat_non_2xx_throws sample_engine _ _) _)) _).
    + reflexivity.
    + discriminate.
    + reflexivity.
Defined.

(** C10.  [chat] sends [search_mode = 'hybrid'] when [searchMode] is
    omitted and [reranker_enabled = true] when [rerankerEnabled] is
    omitted, in a POST to [/chat] under the API base; [search] sends
    [search_mode = 'hybrid'] when [searchMode] is omitted and [top_k = 5]
    when [topK] is omitted, in a POST to [/search]. *)
Theorem omitted_options_take_defaults
  (base message userId sessionId : jsstring)
  (co : option Api.ChatOptions) (so : option Api.SearchOptions) :
  let creq := Api.chat_request base message userId sessionId co in
  let sreq := Api.search_request base message userId so in
  (Api.url creq = base ++ lit "/chat" /\ Api.method creq = lit "POST")
  /\ (option_field Api.searchMode co = None ->
      request_field "search_mode" creq = Some (JString (lit "hybrid")))
  /\ (option_field Api.rerankerEnabled co = None ->
      request_field "reranker_enabled" creq = Some (JBool true))
  /\ (Api.url sreq = base ++ lit "/search" /\ Api.method sreq = lit "POST")
  /\ (option_field Api.search_searchMode so = None ->
      request_field "search_mode" sreq = Some (JString (lit "hybrid")))
  /\ (option_field Api.topK so = None ->
      request_field "top_k" sreq = Some (JNumber 5%float)).
Proof.
  cbv zeta. repeat split.
  - destruct co as [[sm rr]|]; cbn [option_field Api.searchMode];
      intros H; try subst; reflexivity.
  - destruct co as [[sm rr]|]; cbn [option_field Api.rerankerEnabled];
      intros H; try subst; reflexivity.
  - destruct so as [[sm k]|]; cbn [option_field Api.search_searchMode];
      intros H; try subst; reflexivity.
  - destruct so as [[sm k]|]; cbn [option_field Api.topK];
      intros H; try subst; reflexivity.
Qed.

Lemma omitted_options_take_defaults_witness :
  request_field "search_mode"
    (Api.chat_request (lit "/api") (lit "Điều 173") (lit "u-1") (lit "s-1") None)
  = Some (JString (lit "hybrid"))
  /\ request_field "reranker_enabled"
       (Api.chat_request (lit "/api") (lit "Điều 173") (lit "u-1") (lit "s-1")
          (Some {| Api.searchMode := Some Api.mode_legal;
                   Api.rerankerEnabled := None |}))
     = Some (JBool true)
  /\ request_field "top_k"
       (Api.search_request (lit "/api") (lit "Điều 173") (lit "u-1") None)
     = Some (JNumber 5%float).
Proof.
  pose proof (omitted_options_take_defaults (lit "/api") (lit "Điều 173")
                (lit "u-1") (lit "s-1") None None) as H0.
  pose proof (omitted_options_take_defaults (lit "/api") (lit "Điều 173")
                (lit "u-1") (lit "s-1")
                (Some {| Api.searchMode := Some Api.mode_legal;
                         Api.rerankerEnabled := None |}) None) as H1.
  cbv zeta in H0, H1.
  destruct H0 as (_ & Hs & _ & _ & _ & Hk).
  destruct H1 as (_ & _ & Hr & _).
  split; [|split]; [apply Hs | apply Hr | apply Hk]; reflexivity.
Defined.

(** ** The settings panel *)

Lemma strict_equals_string_true (v : option json) (s : jsstring) :
  SettingsPanel.strict_equals_string v s = true <-> v = Some (JString s).
Proof.
  unfold SettingsPanel.strict_equals_string.
  destruct v as [[| | |x| |]|]; split; try discriminate.
  - intros H. apply jsstring_eqb_eq in H. now subst.
  - intros H. injection H as ->. apply jsstring_eqb_refl.
Qed.

Lemma switchProvider_settle_failed (providerId : jsstring)
  (outcome : Settled Api.Response)
  (refresh : Settled (list SettingsPanel.LLMProvider))
  (st : SettingsPanel.State) :
  ~ reports_success outcome ->
  SettingsPanel.switchProvider_settle providerId outcome refresh st
  = SettingsPanel.finally_setLoading_false st.
Proof.
  intros Hfail. unfold SettingsPanel.switchProvider_settle.
  destruct outcome as [res|e]; [|reflexivity].
  destruct (Api.json_body res) as [data|e] eqn:Hbody; [|reflexivity].
  destruct (get data (lit "status")) as [|v] eqn:Hstatus; [reflexivity|].
  destruct (SettingsPanel.strict_equals_string v (lit "success")) eqn:Heq;
    [|reflexivity].
  exfalso. apply Hfail. exists res, data.
  apply strict_equals_string_true in Heq. subst v. auto.
Qed.

(** C5.  A switch that does not succeed ([fetch] rejects, the body does
    not parse, or its [status] is not ['success']) leaves both
    [activeProvider] and [activeModel] as they were, while one that
    succeeds sets the two together; and a click on a provider other than
    [local_ollama] that has no API key opens the key prompt for that
    provider and issues no request. *)
Theorem failed_switch_keeps_active_pair
  (base providerId : jsstring) (model : option jsstring)
  (net : Api.Request -> Settled Api.Response)
  (refresh : Settled (list SettingsPanel.LLMProvider))
  (st : SettingsPanel.State) :
  let request := fst (SettingsPanel.switchProvider_begin base providerId model st) in
  let st' := SettingsPanel.switchProvider base providerId model net refresh st in
  (~ reports_success (net request) ->
   SettingsPanel.activeProvider st' = SettingsPanel.activeProvider st
   /\ SettingsPanel.activeModel st' = SettingsPanel.activeModel st)
  /\ (forall res data,
        net request = Resolved res -> Api.json_body res = Resolved data ->
        get data (lit "status") = ReadValue (Some (JString (lit "success"))) ->
        SettingsPanel.activeProvider st' = Some (JString providerId)
        /\ ReadValue (SettingsPanel.activeModel st') = get data (lit "model"))
  /\ (forall provider,
        SettingsPanel.id provider <> lit "local_ollama" ->
        SettingsPanel.has_api_key provider = false ->
        fst (SettingsPanel.provider_onClick base provider st) = None
        /\ SettingsPanel.showKeyInput
             (snd (SettingsPanel.provider_onClick base provider st))
           = Some (SettingsPanel.id provider)
        /\ SettingsPanel.activeProvider
             (snd (SettingsPanel.provider_onClick base provider st))
           = SettingsPanel.activeProvider st
        /\ SettingsPanel.activeModel
             (snd (SettingsPanel.provider_onClick base provider st))
           = SettingsPanel.activeModel st).
Proof.
  cbv zeta. unfold SettingsPanel.switchProvider.
  cbn [SettingsPanel.switchProvider_begin fst]. split; [|split].
  - intros Hfail. rewrite switchProvider_settle_failed by exact Hfail.
    split; reflexivity.
  - intros res data Hnet Hbody Hstatus.
    unfold SettingsPanel.switchProvider_settle.
    rewrite Hnet, Hbody, Hstatus. cbn [SettingsPanel.strict_equals_string].
    rewrite jsstring_eqb_refl.
    destruct data; try discriminate.
    cbn [get]. destruct refresh; split; reflexivity.
  - intros provider Hid Hkey. unfold SettingsPanel.provider_onClick.
    assert (Hneeds : SettingsPanel.needsKey provider = true).
    { unfold SettingsPanel.needsKey. rewrite Hkey.
      destruct (jsstring_eqb (SettingsPanel.id provider) (lit "local_ollama")) eqn:E;
        [|reflexivity].
      apply jsstring_eqb_eq in E. contradiction. }
    rewrite Hneeds. repeat split.
Qed.

Lemma failed_switch_keeps_active_pair_witness :
  (SettingsPanel.activeProvider
     (SettingsPanel.switchProvider (lit "http://localhost:8080") (lit "openai")
        None (fun _ => Resolved refused) (Resolved []) SettingsPanel.initial)
   = Some (JString (lit "local_ollama"))
   /\ SettingsPanel.activeModel
        (SettingsPanel.switchProvider (lit "http://localhost:8080") (lit "openai")
           None (fun _ => Resolved refused) (Resolved []) SettingsPanel.initial)
      = Some (JString (lit "qwen2.5:3b")))
  /\ fst (SettingsPanel.provider_onClick (lit "http://localhost:8080") openai
            SettingsPanel.initial) = None.
Proof.
  pose proof (failed_switch_keeps_active_pair (lit "http://localhost:8080")
                (lit "openai") None (fun _ => Resolved refused) (Resolved [])
                SettingsPanel.initial) as H.
  cbv zeta in H. destruct H as (Hfail & _ & Hclick). split.
  - apply Hfail. intros (res & data & Hres & Hbody & Hstatus).
    injection Hres as <-. cbn in Hbody. injection Hbody as <-.
    vm_compute in Hstatus. discriminate.
  - apply (Hclick openai).
    + vm_compute. discriminate.
    + reflexivity.
Defined.

(** ** The history panel *)

Lemma filter_removes_session (sessionId : jsstring)
  (l : list ChatHistory.ChatSession) :
  ~ In sessionId
      (map ChatHistory.session_id
         (filter (fun s => negb (jsstring_eqb (ChatHistory.session_id s) sessionId)) l)).
Proof.
  intros H. apply in_map_iff in H as (s & Hs & Hin).
  apply filter_In in Hin as [_ Hneq]. subst sessionId.
  now rewrite jsstring_eqb_refl in Hneq.
Qed.

Lemma filter_absent_session (sessionId : jsstring)
  (l : list ChatHistory.ChatSession) :
  ~ In sessionId (map ChatHistory.session_id l) ->
  filter (fun s => negb (jsstring_eqb (ChatHistory.session_id s) sessionId)) l = l.
Proof.
  induction l as [|s l IH]; [reflexivity|]. cbn. intros H.
  destruct (jsstring_eqb (ChatHistory.session_id s) sessionId) eqn:E.
  - apply jsstring_eqb_eq in E. exfalso. apply H. now left.
  - cbn. f_equal. apply IH. intros Hin. apply H. now right.
Qed.

Lemma handleDelete_arms (cb : option (jsstring -> option Thrown))
  (net : Api.Request -> Settled Api.Response) (sid : jsstring)
  (st : ChatHistory.State) :
  ChatHistory.confirmed st sid = false ->
  ChatHistory.handleDelete cb net sid st =
  {| ChatHistory.sessions := ChatHistory.sessions st;
     ChatHistory.loading := ChatHistory.loading st;
     ChatHistory.error := ChatHistory.error st;
     ChatHistory.deleteConfirm := Some sid |}.
Proof.
  intros H. unfold ChatHistory.handleDelete, ChatHistory.handleDelete_begin.
  now rewrite H.
Qed.

Lemma handleDelete_sends (cb : option (jsstring -> option Thrown))
  (net : Api.Request -> Settled Api.Response) (sid : jsstring)
  (st : ChatHistory.State) :
  ChatHistory.confirmed st sid = true ->
  ChatHistory.handleDelete cb net sid st =
  ChatHistory.handleDelete_settle cb sid (net (ChatHistory.delete_request sid)) st.
Proof.
  intros H. unfold ChatHistory.handleDelete, ChatHistory.handleDelete_begin.
  now rewrite H.
Qed.

Lemma handleDelete_settle_ok (sid : jsstring) (r : Api.Response)
  (st : ChatHistory.State) :
  Api.ok r = true ->
  ChatHistory.handleDelete_settle None sid (Resolved r) st =
  {| ChatHistory.sessions :=
       filter (fun s => negb (jsstring_eqb (ChatHistory.session_id s) sid))
              (ChatHistory.sessions st);
     ChatHistory.loading := ChatHistory.loading st;
     ChatHistory.error := ChatHistory.error st;
     ChatHistory.deleteConfirm := None |}.
Proof. intros H. unfold ChatHistory.handleDelete_settle. now rewrite H. Qed.

Lemma handleDelete_settle_not_ok
  (cb : option (jsstring -> option Thrown)) (sid : jsstring)
  (outcome : Settled Api.Response) (st : ChatHistory.State) :
  match outcome with
  | Resolved r => Api.ok r = false
  | Rejected _ => True
  end ->
  ChatHistory.handleDelete_settle cb sid outcome st =
  {| ChatHistory.sessions := ChatHistory.sessions st;
     ChatHistory.loading := ChatHistory.loading st;
     ChatHistory.error := Some (lit "Failed to delete session");
     ChatHistory.deleteConfirm := ChatHistory.deleteConfirm st |}.
Proof.
  unfold ChatHistory.handleDelete_settle.
  destruct outcome as [r|e]; [intros ->|]; reflexivity.
Qed.

(** C6 as written fails: the session is already gone from the list, the
    repeat delete is answered 404, and the panel shows the error
    [Failed to delete session]; [deleteSession] of the API client throws
    on the same response. *)
Lemma repeat_delete_404_is_surfaced :
  let sid := lit "s-1" in
  let gone :=
    {| ChatHistory.sessions := []; ChatHistory.loading := false;
       ChatHistory.error := None; ChatHistory.deleteConfirm := Some sid |} in
  let not_found :=
    {| Api.status := 404;
       Api.json_body := Resolved (JObject [(lit "detail", JString (lit "Session not found"))]) |} in
  let after := ChatHistory.handleDelete None (fun _ => Resolved not_found) sid gone in
  ChatHistory.sessions after = []
  /\ ChatHistory.error after = Some (lit "Failed to delete session")
  /\ Api.deleteSession (lit "/api") (fun _ => Resolved not_found) sid
     = Rejected (ErrorObj (lit "Failed to delete session: 404")).
Proof. vm_compute. repeat split. Qed.

(** C6, amended.  After a delete that succeeded the session is absent
    from the displayed list, and a repeat delete of the same id (one
    click to arm the confirmation, one to send) leaves the list as it
    is, whatever the answer.  The repeat is shown as no error only when
    it is answered 2xx; answered 404, or any other non-2xx status, or
    not answered at all, it sets the error [Failed to delete session]. *)
Theorem repeat_delete_keeps_session_absent
  (net1 net2 : Api.Request -> Settled Api.Response) (sid : jsstring)
  (st : ChatHistory.State) (r1 : Api.Response) :
  ChatHistory.deleteConfirm st = Some sid ->
  net1 (ChatHistory.delete_request sid) = Resolved r1 ->
  Api.ok r1 = true ->
  let st1 := ChatHistory.handleDelete None net1 sid st in
  let st2 :=
    ChatHistory.handleDelete None net2 sid
      (ChatHistory.handleDelete None net2 sid st1) in
  absent sid st1
  /\ ChatHistory.error st1 = ChatHistory.error st
  /\ ChatHistory.sessions st2 = ChatHistory.sessions st1
  /\ match net2 (ChatHistory.delete_request sid) with
     | Resolved r2 =>
       if Api.ok r2 then ChatHistory.error st2 = ChatHistory.error st1
       else ChatHistory.error st2 = Some (lit "Failed to delete session")
     | Rejected _ => ChatHistory.error st2 = Some (lit "Failed to delete session")
     end.
Proof.
  intros Hconf Hnet Hok. cbv zeta.
  assert (Hc : ChatHistory.confirmed st sid = true).
  { unfold ChatHistory.confirmed. rewrite Hconf. apply jsstring_eqb_refl. }
  rewrite (handleDelete_sends None net1 sid st Hc), Hnet,
    (handleDelete_settle_ok sid r1 st Hok).
  set (st1 := {| ChatHistory.sessions := filter _ _;
                 ChatHistory.deleteConfirm := None |}).
  rewrite (handleDelete_arms None net2 sid st1 eq_refl).
  rewrite handleDelete_sends
    by (unfold ChatHistory.confirmed; apply jsstring_eqb_refl).
  split; [apply filter_removes_session|]. split; [reflexivity|].
  destruct (net2 (ChatHistory.delete_request sid)) as [r2|e].
  - destruct (Api.ok r2) eqn:Hok2.
    + rewrite handleDelete_settle_ok by exact Hok2. split; [|reflexivity].
      apply filter_absent_session, filter_removes_session.
    + rewrite handleDelete_settle_not_ok by exact Hok2. split; reflexivity.
  - rewrite handleDelete_settle_not_ok by exact I. split; reflexivity.
Qed.

Lemma repeat_delete_keeps_session_absent_witness :
  absent (lit "s-1")
    (ChatHistory.handleDelete None (answers 200) (lit "s-1") one_session)
  /\ ChatHistory.error
       (ChatHistory.handleDelete None (answers 404) (lit "s-1")
          (ChatHistory.handleDelete None (answers 404) (lit "s-1")
             (ChatHistory.handleDelete None (answers 200) (lit "s-1") one_session)))
     = Some (lit "Failed to delete session").
Proof.
  pose proof (repeat_delete_keeps_session_absent (answers 200) (answers 404)
                (lit "s-1") one_session
                {| Api.status := 200; Api.json_body := Resolved (JObject []) |}
                eq_refl eq_refl eq_refl) as H.
  cbv zeta in H. destruct H as (Habsent & _ & _ & Herr).
  split; [exact Habsent|exact Herr].
Defined.

(** ** The upload modal *)

Import UploadModal.

Lemma isValidFile_spec (f : Api.File) :
  isValidFile f = true <->
  (Api.type f = lit "application/pdf" \/ Api.type f = lit "text/plain"
   \/ Api.type f = docx_type)
  /\ (Api.size f <= 10 * 1024 * 1024)%N.
Proof.
  unfold isValidFile, validTypes, maxSize, docx_type. cbn [existsb].
  rewrite andb_true_iff, !orb_true_iff, N.leb_le, !jsstring_eqb_eq.
  intuition congruence.
Qed.

Lemma accept_or_reject_invalid (f : Api.File) (st : State) :
  isValidFile f = false ->
  accept_or_reject (Some f) st =
  {| isDragOver := isDragOver st; file := file st; progress := progress st;
     status := status st; error := Some rejected_message |}.
Proof. intros H. unfold accept_or_reject. now rewrite H. Qed.

Lemma accept_or_reject_valid (picked : option Api.File) (st : State) :
  (forall f, file st = Some f -> isValidFile f = true) ->
  forall f, file (accept_or_reject picked st) = Some f -> isValidFile f = true.
Proof.
  intros Hst f. unfold accept_or_reject.
  destruct picked as [g|]; [destruct (isValidFile g) eqn:Hg|]; cbn [file];
    try apply Hst.
  intros H. injection H as <-. exact Hg.
Qed.

Lemma handleUpload_file (events : list Api.XhrEvent) (st : State) :
  file (fst (handleUpload events st)) = file st.
Proof.
  assert (Hfold : forall l s, file (fold_left (fun s prog => setProgress prog s) l s)
                              = file s).
  { induction l as [|x l IH]; intros s; [reflexivity|]. cbn. now rewrite IH. }
  unfold handleUpload, handleUpload_begin.
  destruct (file st) as [f|] eqn:Hf; [|exact Hf].
  destruct (Api.uploadDocument_events true events) as [reports settled].
  destruct settled as [[v|e]|]; cbn [handleUpload_settle fst file];
    rewrite Hfold; reflexivity.
Qed.

Lemma step_holds_valid_file (ev : Event) (m : Modal) :
  holds_valid_file m -> holds_valid_file (step ev m).
Proof.
  unfold holds_valid_file. intros Hm f.
  destruct ev; cbn [step ui]; try apply Hm.
  - apply accept_or_reject_valid. exact Hm.
  - apply accept_or_reject_valid. exact Hm.
  - destruct (handleUpload events (ui m)) as [st effects] eqn:Hu. cbn [ui].
    replace st with (fst (handleUpload events (ui m))) by now rewrite Hu.
    rewrite handleUpload_file. apply Hm.
  - cbn. discriminate.
  - destruct (timers m); [apply Hm|]. cbn. discriminate.
Qed.

Lemma run_holds_valid_file (trace : list Event) (m : Modal) :
  holds_valid_file m -> holds_valid_file (run trace m).
Proof.
  revert m. unfold run.
  induction trace as [|ev trace IH]; intros m Hm; [exact Hm|].
  cbn [fold_left]. apply IH, step_holds_valid_file, Hm.
Qed.

(** C2 as written fails: an 11MB PDF (right type, too large) and a small
    PNG (wrong type, small enough) are both turned down, and with the
    same message; the reason shown does not tell the two apart. *)
Lemma rejection_reason_is_the_same :
  isValidFile big_pdf = false
  /\ isValidFile small_png = false
  /\ existsb (fun t => jsstring_eqb t (Api.type big_pdf)) validTypes = true
  /\ (Api.size small_png <=? maxSize)%N = true
  /\ handleDrop (Some big_pdf) initial = handleDrop (Some small_png) initial
  /\ error (handleDrop (Some big_pdf) initial) = Some rejected_message.
Proof. vm_compute. repeat split. Qed.

(** C2, amended.  [isValidFile] accepts a file exactly when its type is
    one of [application/pdf], [text/plain] and the DOCX type and its size
    is at most 10*1024*1024 bytes.  A drop or a selection of any other
    file keeps the file held before, issues no upload, and sets one fixed
    message that names both the accepted types and the size limit, the
    same for a wrong type and for a file too large.  No file that fails
    the check is ever held by the modal, hence none is ever handed to
    [uploadDocument]. *)
Theorem invalid_file_is_rejected_before_upload
  (f : Api.File) (st : State) (trace : list Event) :
  (isValidFile f = true <->
   (Api.type f = lit "application/pdf" \/ Api.type f = lit "text/plain"
    \/ Api.type f = docx_type)
   /\ (Api.size f <= 10 * 1024 * 1024)%N)
  /\ (isValidFile f = false ->
      handleDrop (Some f) st =
      {| isDragOver := false; file := file st; progress := progress st;
         status := status st; error := Some rejected_message |}
      /\ handleFileSelect (Some f) st =
         {| isDragOver := isDragOver st; file := file st;
            progress := progress st; status := status st;
            error := Some rejected_message |})
  /\ (forall g st1,
        handleUpload_begin (ui (run trace {| ui := initial; timers := 0 |}))
        = Some (g, st1) ->
        isValidFile g = true).
Proof.
  split; [apply isValidFile_spec|]. split.
  - intros H. unfold handleDrop, handleFileSelect.
    rewrite !accept_or_reject_invalid by exact H. split; reflexivity.
  - intros g st1. unfold handleUpload_begin.
    destruct (file (ui (run trace _))) as [h|] eqn:Hh; [|discriminate].
    intros H. injection H as <- _.
    apply (run_holds_valid_file trace {| ui := initial; timers := 0 |});
      [|exact Hh].
    intros h0 H0. discriminate.
Qed.

Lemma invalid_file_is_rejected_before_upload_witness :
  handleDrop (Some big_pdf) initial =
  {| isDragOver := false; file := None; progress := 0%float;
     status := status_idle; error := Some rejected_message |}
  /\ handleUpload_begin
       (ui (run [Drop (Some big_pdf)] {| ui := initial; timers := 0 |})) = None.
Proof.
  pose proof (invalid_file_is_rejected_before_upload big_pdf initial
                [Drop (Some big_pdf)]) as (_ & Hreject & Hvalid).
  split.
  - apply Hreject. vm_compute. reflexivity.
  - destruct (handleUpload_begin _) as [[g st1]|] eqn:Hb; [|reflexivity].
    exfalso. vm_compute in Hb. discriminate.
Defined.

Lemma last_nonempty {A} (a : A) (l : list A) (d d' : A) :
  last (a :: l) d = last (a :: l) d'.
Proof.
  revert a. induction l as [|b l IH]; intros a; [reflexivity|].
  change (last (b :: l) d = last (b :: l) d'). apply IH.
Qed.

Lemma fold_setProgress (reports : list number) (st : State) :
  fold_left (fun s prog => setProgress prog s) reports st =
  {| isDragOver := isDragOver st; file := file st;
     progress := last reports (progress st);
     status := status st; error := error st |}.
Proof.
  revert st. induction reports as [|x l IH]; intros st.
  - now destruct st.
  - cbn [fold_left]. rewrite IH.
    cbn [setProgress isDragOver file status error progress].
    f_equal. destruct l as [|y l]; [reflexivity|].
    change (last (x :: y :: l) (progress st)) with (last (y :: l) (progress st)).
    apply last_nonempty.
Qed.

Lemma handleUpload_rejected (events : list Api.XhrEvent) (st : State)
  (f : Api.File) (e : Thrown) :
  file st = Some f ->
  snd (Api.uploadDocument_events true events) = Some (Rejected e) ->
  handleUpload events st =
  ({| isDragOver := isDragOver st; file := Some f;
      progress := last (fst (Api.uploadDocument_events true events)) 0%float;
      status := status_error;
      error := Some match e with
                    | ErrorObj message => message
                    | NonError => upload_failed_fallback
                    end |}, []).
Proof.
  intros Hf He. unfold handleUpload, handleUpload_begin. rewrite Hf.
  destruct (Api.uploadDocument_events true events) as [reports settled].
  cbn [snd fst] in *. subst settled. rewrite fold_setProgress. reflexivity.
Qed.

Lemma step_keeps_file (ev : Event) (m : Modal) :
  may_clear ev = false -> timers m = O -> file (ui m) <> None ->
  timers (step ev m) = O /\ file (ui (step ev m)) <> None.
Proof.
  intros Hev Ht Hf.
  destruct ev; cbn [step ui timers]; try (split; [exact Ht|exact Hf]).
  - split; [exact Ht|]. unfold handleDrop, accept_or_reject.
    destruct droppedFile as [g|]; [destruct (isValidFile g)|]; cbn [file];
      try exact Hf; discriminate.
  - split; [exact Ht|]. unfold handleFileSelect, accept_or_reject.
    destruct selectedFile as [g|]; [destruct (isValidFile g)|]; cbn [file];
      try exact Hf; discriminate.
  - pose proof (handleUpload_file events (ui m)) as Hfile.
    unfold handleUpload, handleUpload_begin in *. cbn [may_clear] in Hev.
    destruct (file (ui m)) as [g|] eqn:Hg; [|contradiction].
    destruct (Api.uploadDocument_events true events) as [reports settled].
    cbn [snd] in Hev.
    destruct settled as [[v|e]|]; [discriminate| |];
      cbn [handleUpload_settle fst] in *; cbn [ui timers armed filter length];
      (split; [lia|]); rewrite Hfile; discriminate.
  - discriminate.
  - rewrite Ht. split; [exact Ht|exact Hf].
Qed.

Lemma run_keeps_file (trace : list Event) (m : Modal) :
  Forall (fun ev => may_clear ev = false) trace ->
  timers m = O -> file (ui m) <> None ->
  file (ui (run trace m)) <> None.
Proof.
  revert m. unfold run.
  induction trace as [|ev trace IH]; intros m Hall Ht Hf; [exact Hf|].
  inversion Hall as [|? ? Hev Hrest]; subst. cbn [fold_left].
  destruct (step_keeps_file ev m Hev Ht Hf) as [Ht' Hf'].
  now apply IH.
Qed.

(** C7 as written fails in its frame: an upload that fails after half of
    the bytes were sent leaves the file in place, but the progress cell
    has changed with the status and the error. *)
Lemma failed_upload_changes_progress :
  let st := held contract_pdf in
  let st' := fst (handleUpload [Api.xhr_progress true 2048 4096; Api.xhr_error] st) in
  file st' = file st
  /\ status st' = status_error
  /\ error st' = Some (lit "Upload failed: Network error")
  /\ progress st = 0%float
  /\ progress st' = 50%float
  /\ PrimFloat.eqb (progress st') (progress st) = false.
Proof. vm_compute. repeat split. Qed.

(** C7, amended.  An upload that fails leaves the selected file and the
    drag flag as they were; it sets the status to [error], the error to
    the message of the failure, and leaves in the progress cell the last
    percentage reported (0 when none was), and it arms no timer.  In any
    run of the modal that starts with a file held and no timer armed, the
    file is still held as long as no reset button was clicked and no
    upload succeeded. *)
Theorem failed_upload_keeps_file
  (events : list Api.XhrEvent) (st : State) (f : Api.File) (e : Thrown)
  (trace : list Event) (m : Modal) :
  (file st = Some f ->
   snd (Api.uploadDocument_events true events) = Some (Rejected e) ->
   handleUpload events st =
   ({| isDragOver := isDragOver st; file := Some f;
       progress := last (fst (Api.uploadDocument_events true events)) 0%float;
       status := status_error;
       error := Some match e with
                     | ErrorObj message => message
                     | NonError => upload_failed_fallback
                     end |}, []))
  /\ (Forall (fun ev => may_clear ev = false) trace ->
      timers m = O -> file (ui m) <> None ->
      file (ui (run trace m)) <> None).
Proof.
  split.
  - apply handleUpload_rejected.
  - apply run_keeps_file.
Qed.

Lemma failed_upload_keeps_file_witness :
  file (fst (handleUpload [Api.xhr_progress true 2048 4096; Api.xhr_load 413 None]
               (held contract_pdf)))
  = Some contract_pdf
  /\ file (ui (run [Upload [Api.xhr_error]; DragOver; Drop (Some small_png);
                    TimerFires; Upload [Api.xhr_load 500 None]]
                 {| ui := held contract_pdf; timers := 0 |})) <> None.
Proof.
  pose proof (failed_upload_keeps_file
                [Api.xhr_progress true 2048 4096; Api.xhr_load 413 None]
                (held contract_pdf) contract_pdf
                (ErrorObj (lit "Upload failed: 413"))
                [Upload [Api.xhr_error]; DragOver; Drop (Some small_png);
                 TimerFires; Upload [Api.xhr_load 500 None]]
                {| ui := held contract_pdf; timers := 0 |}) as [Hfail Hrun].
  split.
  - rewrite Hfail; reflexivity.
  - apply Hrun.
    + repeat constructor.
    + reflexivity.
    + discriminate.
Defined.


(** * Further properties *)

(** ** The chat area, as a whole *)

Lemma trimStart_nil (s : jsstring) :
  trimStart s = [] <-> forallb is_white_space s = true.
Proof.
  induction s as [|c r IH]; cbn [trimStart forallb].
  - split; reflexivity.
  - destruct (is_white_space c); cbn [andb].
    + exact IH.
    + split; discriminate.
Qed.

Lemma trimStart_suffix (s : jsstring) :
  exists ws, s = ws ++ trimStart s /\ forallb is_white_space ws = true.
Proof.
  induction s as [|c r (ws & Hs & Hws)]; cbn [trimStart].
  - exists []. split; reflexivity.
  - destruct (is_white_space c) eqn:Hc.
    + exists (c :: ws). cbn [app forallb]. rewrite Hc, Hws, <- Hs.
      split; reflexivity.
    + exists []. split; reflexivity.
Qed.

Lemma forallb_rev {A} (f : A -> bool) (l : list A) :
  forallb f (rev l) = forallb f l.
Proof.
  induction l as [|x l IH]; [reflexivity|].
  cbn [rev forallb]. rewrite forallb_app, IH. cbn [forallb].
  rewrite andb_true_r. apply andb_comm.
Qed.

Lemma trim_nil (s : jsstring) :
  trim s = [] <-> forallb is_white_space s = true.
Proof.
  unfold trim, trimEnd. split.
  - intros H.
    assert (H1 : trimStart (rev (trimStart s)) = []).
    { destruct (trimStart (rev (trimStart s))) as [|x l]; [reflexivity|].
      apply (f_equal (@length _)) in H. rewrite length_rev in H.
      discriminate. }
    apply trimStart_nil in H1. rewrite forallb_rev in H1.
    destruct (trimStart_suffix s) as (ws & Hs & Hws).
    rewrite Hs, forallb_app, Hws, H1. reflexivity.
  - intros H. apply trimStart_nil in H. rewrite H. reflexivity.
Qed.

Lemma not_blank (s : jsstring) :
  trim s <> [] <-> exists c, In c s /\ visible c.
Proof.
  rewrite trim_nil. unfold visible. split.
  - intros H. induction s as [|c r IH]; [now elim H|].
    destruct (is_white_space c) eqn:Hc.
    + cbn [forallb] in H. rewrite Hc in H. cbn [andb] in H.
      destruct (IH H) as (x & Hx & Hv). exists x. split; [now right|exact Hv].
    + exists c. split; [now left|exact Hc].
  - intros (c & Hin & Hv) H. rewrite forallb_forall in H.
    rewrite (H c Hin) in Hv. discriminate.
Qed.

(** X1.  [handleSend] calls [chat] exactly when no request is in flight
    and the input holds at least one code unit that is not white space;
    the message it passes is then the input as typed, surrounding white
    space included. *)
Theorem handleSend_sends_iff_visible_input
  (p : ChatAreaProps) (t0 : jsstring) (st : ChatArea.State) :
  ((exists call st1, handleSend_begin p t0 st = Some (call, st1))
   <-> isLoading st = false /\ exists c, In c (input st) /\ visible c)
  /\ (forall call st1,
        handleSend_begin p t0 st = Some (call, st1) ->
        call_message call = input st).
Proof.
  split; [split|].
  - intros (call & st1 & H).
    destruct (handleSend_begin_some _ _ _ _ _ H) as (Ht & Hl & _).
    split; [exact Hl|]. now apply not_blank.
  - intros (Hl & Hv). apply not_blank in Hv.
    destruct (handleSend_begin p t0 st) as [[call st1]|] eqn:H.
    + now exists call, st1.
    + apply handleSend_begin_none in H. destruct H as [H|H];
        [contradiction|congruence].
  - intros call st1 H.
    now destruct (handleSend_begin_some _ _ _ _ _ H) as (_ & _ & Hm & _).
Qed.

Lemma handleSend_sends_iff_visible_input_witness :
  exists call st1,
    handleSend_begin sample_props (lit "09:30") (typed " Điều 173 ")
    = Some (call, st1).
Proof.
  apply (proj2 (proj1 (handleSend_sends_iff_visible_input sample_props
                         (lit "09:30") (typed " Điều 173 ")))).
  split; [reflexivity|]. exists 272%N. split.
  - vm_compute. right. left. reflexivity.
  - reflexivity.
Defined.

Lemma handleSend_resolved
  (p : ChatAreaProps) (t0 t1 : jsstring)
  (chat : ChatCall -> Settled Api.ChatResponse) (st : ChatArea.State)
  (call : ChatCall) (st1 : ChatArea.State) (response : Api.ChatResponse) :
  handleSend_begin p t0 st = Some (call, st1) ->
  chat call = Resolved response ->
  handleSend p t0 t1 chat st =
  {| messages :=
       messages st
       ++ [{| role := role_user; content := input st; citations := None;
              grade := None; metrics := None; timestamp := Some t0 |};
           {| role := role_assistant; content := Api.answer response;
              citations := Some (Api.sources response);
              grade := option_map Api.grade (Api.metrics response);
              metrics := Api.metrics response; timestamp := Some t1 |}];
     input := []; isLoading := false; ChatArea.error := None |}.
Proof.
  intros Hb Hc.
  destruct (handleSend_begin_some _ _ _ _ _ Hb) as (_ & _ & _ & Hm & Hi & _ & He).
  unfold handleSend. rewrite Hb, Hc. cbn. rewrite Hm, Hi, He, <- app_assoc.
  reflexivity.
Qed.

(** X2.  A turn whose request resolves appends exactly two messages to
    the conversation, the question as typed and then the answer with its
    sources, grade and metrics; it empties the input box, clears the
    error and ends with no request in flight. *)
Theorem answered_turn_appends_question_and_answer
  (p : ChatAreaProps) (t0 t1 : jsstring)
  (chat : ChatCall -> Settled Api.ChatResponse) (st : ChatArea.State)
  (response : Api.ChatResponse) :
  isLoading st = false ->
  trim (input st) <> [] ->
  (forall call, chat call = Resolved response) ->
  handleSend p t0 t1 chat st =
  {| messages :=
       messages st
       ++ [{| role := role_user; content := input st; citations := None;
              grade := None; metrics := None; timestamp := Some t0 |};
           {| role := role_assistant; content := Api.answer response;
              citations := Some (Api.sources response);
              grade := option_map Api.grade (Api.metrics response);
              metrics := Api.metrics response; timestamp := Some t1 |}];
     input := []; isLoading := false; ChatArea.error := None |}.
Proof.
  intros Hl Ht Hc.
  destruct (handleSend_begin p t0 st) as [[call st1]|] eqn:Hb.
  - exact (handleSend_resolved p t0 t1 chat st call st1 response Hb (Hc call)).
  - apply handleSend_begin_none in Hb. destruct Hb; [contradiction|congruence].
Qed.

Lemma answered_turn_appends_question_and_answer_witness :
  map role
    (messages (handleSend sample_props (lit "09:30") (lit "09:31")
                 (fun _ => Resolved sample_answer)
                 (typed "Điều 173 quy định gì?")))
  = [role_assistant; role_user; role_assistant].
Proof.
  rewrite (answered_turn_appends_question_and_answer sample_props
             (lit "09:30") (lit "09:31") (fun _ => Resolved sample_answer)
             (typed "Điều 173 quy định gì?") sample_answer).
  - reflexivity.
  - reflexivity.
  - vm_compute. discriminate.
  - reflexivity.
Defined.

Lemma turns_S (n : nat) :
  turns (S n) = turns n ++ [role_user; role_assistant].
Proof.
  unfold turns. induction n as [|n IH]; [reflexivity|].
  change (repeat [role_user; role_assistant] (S (S n)))
    with ([role_user; role_assistant] :: repeat [role_user; role_assistant] (S n)).
  rewrite concat_cons, IH, app_assoc. f_equal. exact IH.
Qed.

Lemma handleSend_at_rest (p : ChatAreaProps) (t0 t1 : jsstring)
  (outcome : Settled Api.ChatResponse) (k : nat) (st : ChatArea.State) :
  at_rest p k st ->
  at_rest p (match outcome with Resolved _ => S k | Rejected _ => k end)
    (handleSend p t0 t1 (fun _ => outcome) st).
Proof.
  intros (Hl & added & n & Hm & Hr & Hn).
  destruct (handleSend_begin p t0 st) as [[call st1]|] eqn:Hb.
  - destruct outcome as [response|e].
    + rewrite (handleSend_resolved p t0 t1 _ st call st1 response Hb eq_refl).
      split; [reflexivity|]. cbn [messages].
      eexists (added ++ [_; _]), (S n). rewrite Hm, <- app_assoc.
      split; [reflexivity|]. rewrite map_app, Hr, turns_S.
      split; [reflexivity|lia].
    + rewrite (handleSend_rejected p t0 t1 _ st call st1 e Hb eq_refl).
      split; [reflexivity|]. now exists added, n.
  - unfold handleSend. rewrite Hb.
    split; [exact Hl|]. exists added, n. destruct outcome; auto.
Qed.

Lemma handleRetry_keeps (st : ChatArea.State) :
  messages (handleRetry st) = messages st
  /\ isLoading (handleRetry st) = isLoading st.
Proof.
  unfold handleRetry. destruct (0 <? length (messages st))%nat; [|auto].
  destruct (find _ _); auto.
Qed.

Lemma at_rest_le (p : ChatAreaProps) (k k' : nat) (st : ChatArea.State) :
  (k <= k')%nat -> at_rest p k st -> at_rest p k' st.
Proof.
  intros Hk (Hl & added & n & Hm & Hr & Hn).
  split; [exact Hl|]. exists added, n. repeat split; auto. lia.
Qed.

Lemma step_at_rest (p : ChatAreaProps) (ev : ChatArea.Event) (k : nat)
  (st : ChatArea.State) :
  at_rest p k st -> at_rest p (answered [ev] + k)%nat (ChatArea.step p ev st).
Proof.
  intros H. destruct ev as [value|key shiftKey t0 t1 outcome|t0 t1 outcome|];
    cbn [ChatArea.step].
  - exact H.
  - unfold onKeyDown.
    destruct (jsstring_eqb key (lit "Enter") && negb shiftKey).
    + apply (handleSend_at_rest p t0 t1 outcome) in H.
      destruct outcome; exact H.
    + apply at_rest_le with (k := k); [lia|exact H].
  - apply (handleSend_at_rest p t0 t1 outcome) in H.
    destruct outcome; exact H.
  - destruct H as (Hl & added & n & Hm & Hr & Hn).
    destruct (handleRetry_keeps st) as (Hm' & Hl').
    split; [congruence|]. exists added, n. rewrite Hm'. auto.
Qed.

Lemma run_at_rest (p : ChatAreaProps) (trace : list ChatArea.Event) (k : nat)
  (st : ChatArea.State) :
  at_rest p k st ->
  at_rest p (answered trace + k)%nat (ChatArea.run p trace st).
Proof.
  revert k st. induction trace as [|ev trace IH]; intros k st H.
  - exact H.
  - cbn [ChatArea.run fold_left]. apply (step_at_rest p ev) in H.
    apply IH in H. fold (ChatArea.run p trace (ChatArea.step p ev st)).
    eapply at_rest_le; [|exact H].
    unfold answered. cbn [filter]. destruct ev as [| ? ? ? ? [|]| ? ? [|] |];
      cbn [length]; lia.
Qed.

(** X3.  Whatever the user types, sends and retries, and whatever the
    requests come to, a chat area between two events has no request in
    flight and shows the messages it was mounted with followed by
    complete turns only, a question and then its answer: a failed turn
    leaves nothing behind and no turn is ever half shown.  There are at
    most as many turns as sends whose request resolved. *)
Theorem conversation_is_initial_messages_then_turns
  (p : ChatAreaProps) (trace : list ChatArea.Event) :
  let st := ChatArea.run p trace (ChatArea.initial p) in
  isLoading st = false
  /\ exists added n,
       messages st = initial_messages p ++ added
       /\ map role added = turns n
       /\ (n <= answered trace)%nat.
Proof.
  cbv zeta.
  assert (H0 : at_rest p 0%nat (ChatArea.initial p)).
  { split; [reflexivity|]. exists [], 0%nat. cbn. rewrite app_nil_r. auto. }
  apply (run_at_rest p trace) in H0. rewrite Nat.add_0_r in H0. exact H0.
Qed.

Lemma find_last (f : Message -> bool) (before after : list Message)
  (u : Message) :
  f u = true -> Forall (fun m => f m = false) after ->
  find f (rev (before ++ u :: after)) = Some u.
Proof.
  intros Hu Hafter. rewrite rev_app_distr. cbn [rev]. rewrite <- app_assoc.
  cbn [app]. apply Forall_rev in Hafter.
  induction Hafter as [|m l Hm _ IH]; cbn [app find].
  - now rewrite Hu.
  - now rewrite Hm.
Qed.

Lemma find_none (f : Message -> bool) (l : list Message) :
  Forall (fun m => f m = false) l -> find f l = None.
Proof.
  induction 1 as [|m l Hm _ IH]; [reflexivity|]. cbn [find]. now rewrite Hm.
Qed.

(** X4.  [handleRetry] puts the content of the last user message of the
    conversation into the input box and clears the error; when the
    conversation holds no user message it does nothing.  It never changes
    the messages, and a second click changes nothing more. *)
Theorem handleRetry_prefills_last_question (st : ChatArea.State) :
  (forall before u after,
     messages st = before ++ u :: after ->
     role u = role_user ->
     Forall (fun m => role m = role_assistant) after ->
     handleRetry st =
     {| messages := messages st; input := content u;
        isLoading := isLoading st; ChatArea.error := None |})
  /\ (Forall (fun m => role m = role_assistant) (messages st) ->
      handleRetry st = st)
  /\ messages (handleRetry st) = messages st
  /\ handleRetry (handleRetry st) = handleRetry st.
Proof.
  assert (Hno : forall l, Forall (fun m => role m = role_assistant) l ->
                          Forall (fun m => Role_eqb (role m) role_user = false) l).
  { intros l. apply Forall_impl. intros m ->. reflexivity. }
  split; [|split; [|split]].
  - intros before u after Hm Hu Hafter. unfold handleRetry. rewrite Hm.
    rewrite (find_last _ before after u); [| now rewrite Hu | now apply Hno].
    rewrite length_app. cbn [length].
    replace (0 <? length before + S (length after))%nat with true; [reflexivity|].
    symmetry. apply Nat.ltb_lt. lia.
  - intros Hall. unfold handleRetry.
    rewrite find_none; [now destruct (0 <? _)%nat|].
    apply Forall_rev, Hno, Hall.
  - apply handleRetry_keeps.
  - unfold handleRetry at 2.
    destruct (0 <? length (messages st))%nat eqn:Hlen.
    + destruct (find _ (rev (messages st))) as [m|] eqn:Hfind.
      * unfold handleRetry. cbn [messages]. rewrite Hlen, Hfind. reflexivity.
      * unfold handleRetry. now rewrite Hlen, Hfind.
    + unfold handleRetry. now rewrite Hlen.
Qed.

Lemma handleRetry_prefills_last_question_witness :
  input (handleRetry
           {| messages := [plain role_assistant greeting;
                           plain role_user (lit "Điều 173 quy định gì?");
                           plain role_assistant (lit "Tội trộm cắp tài sản.")];
              input := []; isLoading := false;
              ChatArea.error := Some (lit "Chat failed: 500") |})
  = lit "Điều 173 quy định gì?".
Proof.
  rewrite (proj1 (handleRetry_prefills_last_question _)
             [plain role_assistant greeting]
             (plain role_user (lit "Điều 173 quy định gì?"))
             [plain role_assistant (lit "Tội trộm cắp tài sản.")]).
  - reflexivity.
  - reflexivity.
  - reflexivity.
  - repeat constructor.
Defined.

(** X5.  The request [chat] builds for a call made by [handleSend]
    carries the input as typed, the ids of the props and the search mode
    and reranker switch of the props: the defaults of [chat] never apply
    to a message sent from the chat area. *)
Theorem handleSend_request_carries_the_settings
  (base : jsstring) (p : ChatAreaProps) (t0 : jsstring) (st : ChatArea.State)
  (call : ChatCall) (st1 : ChatArea.State) :
  handleSend_begin p t0 st = Some (call, st1) ->
  Api.body (Api.chat_request base (call_message call) (call_userId call)
              (call_sessionId call) (Some (call_options call)))
  = Some (JObject [
      (lit "message", JString (input st));
      (lit "user_id", JString (userId p));
      (lit "session_id", JString (sessionId p));
      (lit "search_mode", JString (Api.SearchMode_literal (searchMode p)));
      (lit "reranker_enabled", JBool (rerankerEnabled p))]).
Proof.
  unfold handleSend_begin.
  destruct (negb (truthy_string (trim (input st))) || isLoading st);
    [discriminate|].
  intros H. injection H as <- _. reflexivity.
Qed.

Lemma handleSend_request_carries_the_settings_witness :
  Api.body (Api.chat_request (lit "/api") (call_message sample_call)
              (call_userId sample_call) (call_sessionId sample_call)
              (Some (call_options sample_call)))
  = Some (JObject [
      (lit "message", JString (input (typed "Điều 173 quy định gì?")));
      (lit "user_id", JString (userId sample_props));
      (lit "session_id", JString (sessionId sample_props));
      (lit "search_mode",
       JString (Api.SearchMode_literal (searchMode sample_props)));
      (lit "reranker_enabled", JBool (rerankerEnabled sample_props))]).
Proof.
  eapply (handleSend_request_carries_the_settings (lit "/api") sample_props
            (lit "09:30") (typed "Điều 173 quy định gì?") sample_call).
  vm_compute. reflexivity.
Defined.

(** ** The API client, beyond [chat] *)

Lemma upload_settled_cons (onProgress : bool) (ev : Api.XhrEvent)
  (rest : list Api.XhrEvent) :
  snd (Api.uploadDocument_events onProgress (ev :: rest)) =
  match settlement ev with
  | Some outcome => Some outcome
  | None => snd (Api.uploadDocument_events onProgress rest)
  end.
Proof.
  unfold settlement. cbn [Api.uploadDocument_events].
  destruct (Api.uploadDocument_events onProgress rest) as [reports settled].
  destruct ev as [lengthComputable loaded total|xhr_status parsed|];
    [reflexivity| |reflexivity].
  destruct ((200 <=? xhr_status) && (xhr_status <? 300))%N;
    [destruct parsed|]; reflexivity.
Qed.

Lemma upload_pending (onProgress : bool) (events : list Api.XhrEvent) :
  Forall (fun ev => settlement ev = None) events ->
  snd (Api.uploadDocument_events onProgress events) = None.
Proof.
  induction 1 as [|ev rest Hev _ IH]; [reflexivity|].
  now rewrite upload_settled_cons, Hev.
Qed.

(** X6.  The promise of [uploadDocument] settles once, at the first
    event that settles it: a [load] with a status outside 200-299, a
    [load] in that range whose text parses, or an [error].  What the
    request delivers afterwards changes nothing, and neither does the
    presence of a progress callback. *)
Theorem upload_settles_at_first_settling_event
  (onProgress : bool) (before after : list Api.XhrEvent) (ev : Api.XhrEvent)
  (outcome : Settled json) :
  Forall (fun e => settlement e = None) before ->
  settlement ev = Some outcome ->
  snd (Api.uploadDocument_events onProgress (before ++ ev :: after))
  = Some outcome.
Proof.
  intros Hbefore Hev.
  induction Hbefore as [|e rest He _ IH]; cbn [app];
    rewrite upload_settled_cons.
  - now rewrite Hev.
  - now rewrite He.
Qed.

Lemma upload_settles_at_first_settling_event_witness :
  snd (Api.uploadDocument_events true
         [Api.xhr_progress true 50 200; Api.xhr_load 200 None;
          Api.xhr_load 413 None; Api.xhr_error])
  = Some (Rejected (ErrorObj (lit "Upload failed: 413"))).
Proof.
  apply (upload_settles_at_first_settling_event true
           [Api.xhr_progress true 50 200; Api.xhr_load 200 None]
           [Api.xhr_error] (Api.xhr_load 413 None)).
  - repeat constructor.
  - reflexivity.
Defined.









(** ** The settings panel, beyond the active pair *)

Lemma reports_success_object (outcome : Settled Api.Response) :
  reports_success outcome ->
  exists res props,
    outcome = Resolved res
    /\ Api.json_body res = Resolved (JObject props)
    /\ own_property (lit "status") props = Some (JString (lit "success")).
Proof.
  intros (res & data & Ho & Hb & Hs). exists res.
  destruct data as [| | | | |props]; try discriminate.
  exists props. cbn [get] in Hs. injection Hs as Hs. auto.
Qed.

(** X8.  When a switch does not succeed, the key the user typed and the
    open key prompt are kept, so the switch can be tried again; nothing
    but the loading flag and the last test result is touched.  When it
    succeeds, the typed key is wiped from the state and the prompt is
    closed.  Either way the panel is no longer loading and shows no test
    result. *)
Theorem failed_switch_keeps_typed_key
  (base providerId : jsstring) (model : option jsstring)
  (net : Api.Request -> Settled Api.Response)
  (refresh : Settled (list SettingsPanel.LLMProvider))
  (st : SettingsPanel.State) :
  let request := fst (SettingsPanel.switchProvider_begin base providerId model st) in
  let st' := SettingsPanel.switchProvider base providerId model net refresh st in
  (~ reports_success (net request) ->
   st' = {| SettingsPanel.providers := SettingsPanel.providers st;
            SettingsPanel.activeProvider := SettingsPanel.activeProvider st;
            SettingsPanel.activeModel := SettingsPanel.activeModel st;
            SettingsPanel.loading := false;
            SettingsPanel.apiKeyInput := SettingsPanel.apiKeyInput st;
            SettingsPanel.showKeyInput := SettingsPanel.showKeyInput st;
            SettingsPanel.testResult := None |})
  /\ (reports_success (net request) ->
      SettingsPanel.apiKeyInput st' = []
      /\ SettingsPanel.showKeyInput st' = None)
  /\ SettingsPanel.loading st' = false
  /\ SettingsPanel.testResult st' = None.
Proof.
  cbv zeta. unfold SettingsPanel.switchProvider.
  cbn [SettingsPanel.switchProvider_begin fst].
  set (request := {| Api.url := _ |}).
  set (st1 := {| SettingsPanel.providers := _ |}).
  assert (Hok : reports_success (net request) ->
                exists model' ps,
                  SettingsPanel.switchProvider_settle providerId (net request)
                    refresh st1
                  = {| SettingsPanel.providers := ps;
                       SettingsPanel.activeProvider := Some (JString providerId);
                       SettingsPanel.activeModel := model';
                       SettingsPanel.loading := false;
                       SettingsPanel.apiKeyInput := [];
                       SettingsPanel.showKeyInput := None;
                       SettingsPanel.testResult := None |}).
  { intros H. apply reports_success_object in H as (res & props & Ho & Hb & Hs).
    unfold SettingsPanel.switchProvider_settle. rewrite Ho, Hb. cbn [get].
    rewrite Hs. cbn [SettingsPanel.strict_equals_string].
    rewrite jsstring_eqb_refl.
    exists (own_property (lit "model") props).
    destruct refresh as [ps|e]; [exists ps|exists (SettingsPanel.providers st)];
      reflexivity. }
  split; [|split].
  - intros Hfail. now rewrite switchProvider_settle_failed.
  - intros H. destruct (Hok H) as (model' & ps & ->). split; reflexivity.
  - destruct (SettingsPanel.switchProvider_settle providerId (net request)
                refresh st1) eqn:Hs.
    assert (Hcases : SettingsPanel.switchProvider_settle providerId
                       (net request) refresh st1
                     = SettingsPanel.finally_setLoading_false st1
                     \/ exists model' ps,
                          SettingsPanel.switchProvider_settle providerId
                            (net request) refresh st1
                          = {| SettingsPanel.providers := ps;
                               SettingsPanel.activeProvider := Some (JString providerId);
                               SettingsPanel.activeModel := model';
                               SettingsPanel.loading := false;
                               SettingsPanel.apiKeyInput := [];
                               SettingsPanel.showKeyInput := None;
                               SettingsPanel.testResult := None |}).
    { clear Hs. unfold SettingsPanel.switchProvider_settle.
      destruct (net request) as [res|e]; [|now left].
      destruct (Api.json_body res) as [data|e]; [|now left].
      destruct (get data (lit "status")) as [|v]; [now left|].
      destruct (SettingsPanel.strict_equals_string v (lit "success"));
        [|now left].
      destruct (get data (lit "model")) as [|model']; [now left|].
      right. exists model'.
      destruct refresh as [ps|e]; [exists ps|exists (SettingsPanel.providers st)];
        reflexivity. }
    rewrite Hs in Hcases. destruct Hcases as [H|(model' & ps & H)];
      rewrite H; split; reflexivity.
Qed.

Lemma failed_switch_keeps_typed_key_witness :
  SettingsPanel.apiKeyInput
    (SettingsPanel.switchProvider (lit "http://localhost:8080") (lit "openai")
       None (fun _ => Resolved refused) (Resolved [])
       (SettingsPanel.setApiKeyInput (lit "sk-test")
          (snd (SettingsPanel.provider_onClick (lit "http://localhost:8080")
                  openai SettingsPanel.initial))))
  = lit "sk-test".
Proof.
  pose proof (failed_switch_keeps_typed_key (lit "http://localhost:8080")
                (lit "openai") None (fun _ => Resolved refused) (Resolved [])
                (SettingsPanel.setApiKeyInput (lit "sk-test")
                   (snd (SettingsPanel.provider_onClick
                           (lit "http://localhost:8080") openai
                           SettingsPanel.initial)))) as H.
  cbv zeta in H. destruct H as (Hfail & _). rewrite Hfail.
  - reflexivity.
  - intros (res & data & Hres & Hbody & Hstatus).
    injection Hres as <-. cbn in Hbody. injection Hbody as <-.
    vm_compute in Hstatus. discriminate.
Defined.

(** X9.  The body of a switch request has an [api_key] property exactly
    when the key box is not empty, and it is then the content of the
    box, whichever provider the switch is for: a click on the button of
    a provider that needs no prompt sends along a key typed into the
    prompt of another provider.  [provider] is always there, [model]
    only when the caller gives one, which a click never does. *)
Theorem switch_request_carries_typed_key
  (base providerId : jsstring) (model : option jsstring)
  (st : SettingsPanel.State) :
  let request := fst (SettingsPanel.switchProvider_begin base providerId model st) in
  request_field "provider" request = Some (JString providerId)
  /\ request_field "model" request = option_map JString model
  /\ (SettingsPanel.apiKeyInput st = [] ->
      request_field "api_key" request = None)
  /\ (SettingsPanel.apiKeyInput st <> [] ->
      request_field "api_key" request
      = Some (JString (SettingsPanel.apiKeyInput st)))
  /\ (forall provider,
        SettingsPanel.needsKey provider = false ->
        fst (SettingsPanel.provider_onClick base provider st)
        = Some (fst (SettingsPanel.switchProvider_begin base
                       (SettingsPanel.id provider) None st))).
Proof.
  cbv zeta. unfold request_field.
  cbn [SettingsPanel.switchProvider_begin fst Api.body].
  split; [|split; [|split; [|split]]].
  - destruct model, (truthy_string (SettingsPanel.apiKeyInput st));
      vm_compute; rewrite ?jsstring_eqb_refl; reflexivity.
  - destruct model, (truthy_string (SettingsPanel.apiKeyInput st));
      reflexivity.
  - intros ->. destruct model; reflexivity.
  - intros Hkey. destruct (SettingsPanel.apiKeyInput st) as [|c key];
      [contradiction|]. destruct model; reflexivity.
  - intros provider Hneeds. unfold SettingsPanel.provider_onClick.
    rewrite Hneeds. reflexivity.
Qed.

Lemma switch_request_carries_typed_key_witness :
  request_field "api_key"
    (fst (SettingsPanel.switchProvider_begin (lit "http://localhost:8080")
            (lit "openai") None
            (SettingsPanel.setApiKeyInput (lit "sk-test") SettingsPanel.initial)))
  = Some (JString (lit "sk-test")).
Proof.
  pose proof (switch_request_carries_typed_key (lit "http://localhost:8080")
                (lit "openai") None
                (SettingsPanel.setApiKeyInput (lit "sk-test")
                   SettingsPanel.initial)) as H.
  cbv zeta in H. destruct H as (_ & _ & _ & H & _). apply H.
  vm_compute. discriminate.
Defined.

(** X10.  [fetchActiveProvider] stores the [provider] and the [model] of
    the body together or not at all, and touches nothing else.  It does
    not look at the status of the response: a body that is an object
    without these two properties, such as the body of an error response,
    leaves both cells [undefined]. *)
Theorem fetchActiveProvider_ignores_the_status
  (outcome : Settled Api.Response) (st : SettingsPanel.State) :
  let st' := SettingsPanel.fetchActiveProvider outcome st in
  (st' = st
   \/ exists res data provider model,
        outcome = Resolved res
        /\ Api.json_body res = Resolved data
        /\ get data (lit "provider") = ReadValue provider
        /\ get data (lit "model") = ReadValue model
        /\ st' = {| SettingsPanel.providers := SettingsPanel.providers st;
                    SettingsPanel.activeProvider := provider;
                    SettingsPanel.activeModel := model;
                    SettingsPanel.loading := SettingsPanel.loading st;
                    SettingsPanel.apiKeyInput := SettingsPanel.apiKeyInput st;
                    SettingsPanel.showKeyInput := SettingsPanel.showKeyInput st;
                    SettingsPanel.testResult := SettingsPanel.testResult st |})
  /\ (forall res props,
        outcome = Resolved res ->
        Api.json_body res = Resolved (JObject props) ->
        own_property (lit "provider") props = None ->
        own_property (lit "model") props = None ->
        SettingsPanel.activeProvider st' = None
        /\ SettingsPanel.activeModel st' = None).
Proof.
  cbv zeta. split.
  - unfold SettingsPanel.fetchActiveProvider.
    destruct outcome as [res|e]; [|now left].
    destruct (Api.json_body res) as [data|e] eqn:Hb; [|now left].
    destruct (get data (lit "provider")) as [|provider] eqn:Hp; [now left|].
    destruct (get data (lit "model")) as [|model] eqn:Hm; [now left|].
    right. exists res, data, provider, model. auto.
  - intros res props -> Hb Hp Hm. unfold SettingsPanel.fetchActiveProvider.
    rewrite Hb. cbn [get]. rewrite Hp, Hm. split; reflexivity.
Qed.

Lemma fetchActiveProvider_ignores_the_status_witness :
  SettingsPanel.activeProvider
    (SettingsPanel.fetchActiveProvider (Resolved refused) SettingsPanel.initial)
  = None.
Proof.
  apply (proj2 (fetchActiveProvider_ignores_the_status (Resolved refused)
                  SettingsPanel.initial) refused
           [(lit "detail", JString (lit "API key required"))]).
  - reflexivity.
  - reflexivity.
  - reflexivity.
  - reflexivity.
Defined.

(** ** The history panel, beyond the repeated delete *)

Lemma confirmed_false (st : ChatHistory.State) (sid : jsstring) :
  ChatHistory.deleteConfirm st <> Some sid ->
  ChatHistory.confirmed st sid = false.
Proof.
  unfold ChatHistory.confirmed. intros H.
  destruct (ChatHistory.deleteConfirm st) as [s|]; [|reflexivity].
  destruct (jsstring_eqb s sid) eqn:E; [|reflexivity].
  apply jsstring_eqb_eq in E. congruence.
Qed.

Lemma confirmed_true (st : ChatHistory.State) (sid : jsstring) :
  ChatHistory.confirmed st sid = true <->
  ChatHistory.deleteConfirm st = Some sid.
Proof.
  unfold ChatHistory.confirmed.
  destruct (ChatHistory.deleteConfirm st) as [s|]; [|split; discriminate].
  rewrite jsstring_eqb_eq. split; congruence.
Qed.

Lemma handleDelete_begin_arms (sid : jsstring) (st : ChatHistory.State) :
  ChatHistory.confirmed st sid = false ->
  ChatHistory.handleDelete_begin sid st
  = (None,
     {| ChatHistory.sessions := ChatHistory.sessions st;
        ChatHistory.loading := ChatHistory.loading st;
        ChatHistory.error := ChatHistory.error st;
        ChatHistory.deleteConfirm := Some sid |}).
Proof. intros H. unfold ChatHistory.handleDelete_begin. now rewrite H. Qed.

(** X11.  A session is deleted by two clicks in a row on its own delete
    button and in no other way: [handleDelete] issues a request only
    from a state armed for that very session, and the request is the
    DELETE of that session.  A first click arms and sends nothing; a
    click on another session then moves the confirmation there, again
    without any request and without touching the list; a second click on
    the same session sends the request. *)
Theorem delete_needs_two_clicks_on_the_session
  (cb : option (jsstring -> option Thrown))
  (net : Api.Request -> Settled Api.Response)
  (a b : jsstring) (st : ChatHistory.State) :
  (forall request st1,
     ChatHistory.handleDelete_begin a st = (Some request, st1) ->
     ChatHistory.deleteConfirm st = Some a
     /\ request = ChatHistory.delete_request a /\ st1 = st)
  /\ (ChatHistory.deleteConfirm st <> Some a ->
      fst (ChatHistory.handleDelete_begin a st) = None
      /\ fst (ChatHistory.handleDelete_begin a
                (snd (ChatHistory.handleDelete_begin a st)))
         = Some (ChatHistory.delete_request a)
      /\ (a <> b ->
          fst (ChatHistory.handleDelete_begin b
                 (snd (ChatHistory.handleDelete_begin a st))) = None
          /\ ChatHistory.handleDelete cb net b
               (ChatHistory.handleDelete cb net a st)
             = {| ChatHistory.sessions := ChatHistory.sessions st;
                  ChatHistory.loading := ChatHistory.loading st;
                  ChatHistory.error := ChatHistory.error st;
                  ChatHistory.deleteConfirm := Some b |})).
Proof.
  split.
  - intros request st1. unfold ChatHistory.handleDelete_begin.
    destruct (ChatHistory.confirmed st a) eqn:Hc; cbn [negb]; [|discriminate].
    intros H. injection H as <- <-. apply confirmed_true in Hc. auto.
  - intros Hna. pose proof (confirmed_false st a Hna) as Hc.
    rewrite (handleDelete_begin_arms a st Hc). cbn [fst snd].
    split; [reflexivity|]. split.
    + unfold ChatHistory.handleDelete_begin, ChatHistory.confirmed.
      cbn [ChatHistory.deleteConfirm]. now rewrite jsstring_eqb_refl.
    + intros Hab.
      assert (Hb : forall s l e, ChatHistory.confirmed
                     {| ChatHistory.sessions := s; ChatHistory.loading := l;
                        ChatHistory.error := e;
                        ChatHistory.deleteConfirm := Some a |} b = false).
      { intros s l e. apply confirmed_false. cbn. congruence. }
      split.
      * now rewrite handleDelete_begin_arms by apply Hb.
      * rewrite (handleDelete_arms cb net a st Hc).
        rewrite handleDelete_arms by apply Hb. reflexivity.
Qed.

Lemma delete_needs_two_clicks_on_the_session_witness :
  fst (ChatHistory.handleDelete_begin (lit "s-2") one_session) = None
  /\ ChatHistory.sessions
       (ChatHistory.handleDelete None (answers 200) (lit "s-1")
          (ChatHistory.handleDelete None (answers 200) (lit "s-2") one_session))
     = ChatHistory.sessions one_session.
Proof.
  pose proof (delete_needs_two_clicks_on_the_session None (answers 200)
                (lit "s-2") (lit "s-1") one_session) as [_ H].
  destruct H as (H1 & _ & H2).
  - vm_compute. discriminate.
  - split; [exact H1|]. destruct H2 as [_ H2].
    + vm_compute. discriminate.
    + rewrite H2. reflexivity.
Defined.

Lemma filter_cut (sid : jsstring) (before after : list ChatHistory.ChatSession)
  (s : ChatHistory.ChatSession) :
  ChatHistory.session_id s = sid ->
  ~ In sid (map ChatHistory.session_id before) ->
  ~ In sid (map ChatHistory.session_id after) ->
  filter (fun x => negb (jsstring_eqb (ChatHistory.session_id x) sid))
    (before ++ s :: after)
  = before ++ after.
Proof.
  intros Hs Hb Ha. rewrite filter_app. cbn [filter].
  rewrite Hs, jsstring_eqb_refl. cbn [negb].
  now rewrite !filter_absent_session.
Qed.

(** X12.  A confirmed delete that the server answers in 200-299 cuts
    that session out of the list and leaves every other session where it
    was, in the same order; it disarms the confirmation and keeps the
    error and loading cells. *)
Theorem confirmed_delete_cuts_the_session_out
  (net : Api.Request -> Settled Api.Response) (sid : jsstring)
  (st : ChatHistory.State) (r : Api.Response)
  (before after : list ChatHistory.ChatSession) (s : ChatHistory.ChatSession) :
  ChatHistory.deleteConfirm st = Some sid ->
  net (ChatHistory.delete_request sid) = Resolved r ->
  Api.ok r = true ->
  ChatHistory.sessions st = before ++ s :: after ->
  ChatHistory.session_id s = sid ->
  ~ In sid (map ChatHistory.session_id before) ->
  ~ In sid (map ChatHistory.session_id after) ->
  ChatHistory.handleDelete None net sid st
  = {| ChatHistory.sessions := before ++ after;
       ChatHistory.loading := ChatHistory.loading st;
       ChatHistory.error := ChatHistory.error st;
       ChatHistory.deleteConfirm := None |}.
Proof.
  intros Hc Hnet Hok Hl Hs Hb Ha. apply confirmed_true in Hc.
  rewrite handleDelete_sends by exact Hc.
  rewrite Hnet, handleDelete_settle_ok by exact Hok.
  now rewrite Hl, filter_cut.
Qed.

Lemma confirmed_delete_cuts_the_session_out_witness :
  ChatHistory.sessions
    (ChatHistory.handleDelete None (answers 204) (lit "s-1") one_session)
  = [].
Proof.
  rewrite (confirmed_delete_cuts_the_session_out (answers 204) (lit "s-1")
             one_session
             {| Api.status := 204; Api.json_body := Resolved (JObject []) |}
             [] []
             {| ChatHistory.session_id := lit "s-1";
                ChatHistory.title := lit "Tội trộm cắp tài sản";
                ChatHistory.created_at := lit "2025-01-01T09:00:00";
                ChatHistory.updated_at := lit "2025-01-01T09:05:00" |}).
  - reflexivity.
  - reflexivity.
  - reflexivity.
  - reflexivity.
  - reflexivity.
  - reflexivity.
  - intros [].
  - intros [].
Defined.





(** ** The upload modal, beyond the failed upload *)

Lemma handleUpload_settled (events : list Api.XhrEvent) (st : State)
  (f : Api.File) :
  file st = Some f ->
  handleUpload events st =
  let uploading :=
    {| isDragOver := isDragOver st; file := Some f;
       progress := last (fst (Api.uploadDocument_events true events)) 0%float;
       status := status_uploading; error := None |} in
  match snd (Api.uploadDocument_events true events) with
  | Some outcome => handleUpload_settle outcome uploading
  | None => (uploading, [])
  end.
Proof.
  intros Hf. unfold handleUpload, handleUpload_begin. rewrite Hf.
  destruct (Api.uploadDocument_events true events) as [reports settled].
  cbn [snd fst]. rewrite fold_setProgress. reflexivity.
Qed.



(** X16.  A reply in 200-299 whose text is not JSON settles nothing: the
    listener throws while parsing and the promise of [uploadDocument]
    stays pending.  When the request delivers nothing else that settles
    it, the modal stays in the uploading state, with the last reported
    progress, no error and no effect. *)
Theorem unparsable_reply_leaves_the_upload_pending
  (events : list Api.XhrEvent) (st : State) (f : Api.File) :
  (forall xhr_status : N,
     (200 <= xhr_status < 300)%N ->
     settlement (Api.xhr_load xhr_status None) = None)
  /\ (file st = Some f ->
      Forall (fun ev => settlement ev = None) events ->
      handleUpload events st
      = ({| isDragOver := isDragOver st; file := Some f;
            progress := last (fst (Api.uploadDocument_events true events))
                          0%float;
            status := status_uploading; error := None |}, [])).
Proof.
  split.
  - intros s [Hlo Hhi]. unfold settlement. cbn [Api.uploadDocument_events].
    apply N.leb_le in Hlo. apply N.ltb_lt in Hhi. now rewrite Hlo, Hhi.
  - intros Hf Hall. rewrite (handleUpload_settled events st f Hf).
    now rewrite upload_pending.
Qed.

Lemma unparsable_reply_leaves_the_upload_pending_witness :
  status (fst (handleUpload
                 [Api.xhr_progress true 4096 4096; Api.xhr_load 200 None]
                 (held contract_pdf)))
  = status_uploading.
Proof.
  rewrite (proj2 (unparsable_reply_leaves_the_upload_pending
                    [Api.xhr_progress true 4096 4096; Api.xhr_load 200 None]
                    (held contract_pdf) contract_pdf)).
  - reflexivity.
  - reflexivity.
  - repeat constructor.
Defined.

(** ** The toasts and the page *)

(** X17.  [removeToast] takes away the toasts that have the given id and
    keeps every other toast; removing the toast [addToast] has just
    appended under a fresh id gives back the list as it was. *)
Theorem removeToast_undoes_addToast
  (toasts : list Toast.Toast) (randomUUID : jsstring)
  (type : Toast.ToastType) (message : jsstring) (duration : option number) :
  (forall t,
     In t (Toast.removeToast randomUUID toasts)
     <-> In t toasts /\ Toast.id t <> randomUUID)
  /\ (~ In randomUUID (map Toast.id toasts) ->
      Toast.removeToast randomUUID
        (Toast.addToast randomUUID type message duration toasts)
      = toasts).
Proof.
  unfold Toast.removeToast, Toast.addToast. split.
  - intros t. rewrite filter_In, negb_true_iff.
    split; intros [Hin Hid]; (split; [exact Hin|]).
    + intros E. apply jsstring_eqb_eq in E. congruence.
    + destruct (jsstring_eqb (Toast.id t) randomUUID) eqn:E; [|reflexivity].
      apply jsstring_eqb_eq in E. contradiction.
  - intros Hfresh. rewrite filter_app. cbn [filter Toast.id].
    rewrite jsstring_eqb_refl. cbn [negb]. rewrite app_nil_r.
    induction toasts as [|t l IH]; [reflexivity|]. cbn [filter].
    destruct (jsstring_eqb (Toast.id t) randomUUID) eqn:E.
    + apply jsstring_eqb_eq in E. exfalso. apply Hfresh. now left.
    + cbn [negb]. f_equal. apply IH. intros Hin. apply Hfresh. now right.
Qed.

Lemma removeToast_undoes_addToast_witness :
  Toast.removeToast (lit "t-2")
    (Toast.addToast (lit "t-2") Toast.toast_error
       (lit "Không thể xóa tài liệu") None one_toast)
  = one_toast.
Proof.
  apply (proj2 (removeToast_undoes_addToast one_toast (lit "t-2")
                  Toast.toast_error (lit "Không thể xóa tài liệu") None)).
  vm_compute. intros [H|[]]. discriminate.
Defined.

Lemma filter_absent_document (docId : jsstring)
  (l : list MainLayout.Document) :
  ~ In docId (map MainLayout.doc_id l) ->
  filter (fun d => negb (jsstring_eqb (MainLayout.doc_id d) docId)) l = l.
Proof.
  induction l as [|d l IH]; [reflexivity|]. cbn. intros H.
  destruct (jsstring_eqb (MainLayout.doc_id d) docId) eqn:E.
  - apply jsstring_eqb_eq in E. exfalso. apply H. now left.
  - cbn. f_equal. apply IH. intros Hin. apply H. now right.
Qed.

(** X18.  Deleting a document that was just uploaded brings the page
    back to the state before the upload, when no other document has its
    id: the upload appends it at the end of the list and the delete
    takes away exactly that entry. *)
Theorem delete_undoes_upload
  (E : Engine) (result : MainLayout.Document) (st : MainLayout.State) :
  ~ In (MainLayout.doc_id result)
      (map MainLayout.doc_id (MainLayout.documents st)) ->
  fst (MainLayout.handleDeleteDocument (MainLayout.doc_id result) (Resolved tt)
         (fst (MainLayout.handleUploadComplete E result st)))
  = st.
Proof.
  intros Hfresh. destruct st. cbn in *.
  rewrite filter_app, filter_absent_document by exact Hfresh. cbn [filter].
  rewrite jsstring_eqb_refl. cbn [negb]. now rewrite app_nil_r.
Qed.

Lemma delete_undoes_upload_witness :
  fst (MainLayout.handleDeleteDocument (lit "d-1") (Resolved tt)
         (fst (MainLayout.handleUploadComplete sample_engine uploaded
                 (MainLayout.initial (lit "u-1") (lit "s-1")))))
  = MainLayout.initial (lit "u-1") (lit "s-1").
Proof.
  apply (delete_undoes_upload sample_engine uploaded
           (MainLayout.initial (lit "u-1") (lit "s-1"))).
  intros [].
Defined.





(** X21.  The user id survives a reload of the page: whatever the
    storage held at the first load, a second load finds the id of the
    first in the storage, returns it and writes nothing.  An id found in
    the storage is reused as it is; only a missing or empty entry is
    replaced by a new id. *)
Theorem user_id_survives_reload
  (stored : option jsstring) (randomUUID randomUUID' : jsstring) :
  randomUUID <> [] ->
  let first := MainLayout.initial_userId stored randomUUID in
  let storage :=
    match snd first with Some written => Some written | None => stored end in
  MainLayout.initial_userId storage randomUUID' = (fst first, None)
  /\ (forall s, stored = Some s -> s <> [] -> fst first = s).
Proof.
  intros Hid. cbv zeta. unfold MainLayout.initial_userId.
  destruct randomUUID as [|c u]; [contradiction|].
  destruct stored as [[|d s]|]; cbn [truthy_string fst snd]; split;
    try reflexivity; intros x Hx Hne; congruence.
Qed.

Lemma user_id_survives_reload_witness :
  MainLayout.initial_userId (Some (lit "u-1")) (lit "u-2") = (lit "u-1", None).
Proof.
  apply (proj1 (user_id_survives_reload None (lit "u-1") (lit "u-2")
                  ltac:(vm_compute; discriminate))).
Defined.



(** ** Binary64 arithmetic *)

Module Binary64Facts.

Import Binary64.

Local Open Scope Q_scope.

Lemma pow2_pos (e : Z) : 0 < pow2 e.
Proof. apply Qpower_0_lt. reflexivity. Qed.

Lemma pow2_add (a b : Z) : pow2 (a + b) == pow2 a * pow2 b.
Proof. apply Qpower_plus. discriminate. Qed.

Lemma pow2_succ (e : Z) : pow2 (e + 1) == 2 * pow2 e.
Proof. rewrite pow2_add. unfold pow2 at 2. cbn. lra. Qed.

Lemma pow2_le (a b : Z) : (a <= b)%Z -> pow2 a <= pow2 b.
Proof. intros H. apply Qpower_le_compat_l; [exact H|]. discriminate. Qed.

Lemma pow2_lt (a b : Z) : (a < b)%Z -> pow2 a < pow2 b.
Proof. intros H. apply Qpower_lt_compat_l; [exact H|]. reflexivity. Qed.

Lemma pow2_inject (n : Z) : (0 <= n)%Z -> inject_Z (2 ^ n) == pow2 n.
Proof. intros H. now rewrite Zpower_Qpower. Qed.

Lemma pow2_0 : pow2 0 == 1.
Proof. reflexivity. Qed.

Lemma pow2_opp (e : Z) : pow2 e * pow2 (- e) == 1.
Proof. rewrite <- pow2_add, Z.add_opp_diag_r. reflexivity. Qed.

(** Linear arithmetic with the powers and the values taken as atoms. *)
Ltac qatoms :=
  repeat match goal with
         | |- context [F2Q ?m ?e] =>
           let v := fresh "v" in set (v := F2Q m e) in *; clearbody v
         | H : context [F2Q ?m ?e] |- _ =>
           let v := fresh "v" in set (v := F2Q m e) in *; clearbody v
         | |- context [pow2 ?e] =>
           let u := fresh "u" in set (u := pow2 e) in *; clearbody u
         | H : context [pow2 ?e] |- _ =>
           let u := fresh "u" in set (u := pow2 e) in *; clearbody u
         end.

Ltac qlra := qatoms; lra.

Lemma F2Q_le (m n e : Z) : (m <= n)%Z -> F2Q m e <= F2Q n e.
Proof.
  intros H. unfold F2Q. apply Qmult_le_compat_r.
  - now rewrite <- Zle_Qle.
  - apply Qlt_le_weak, pow2_pos.
Qed.

Lemma F2Q_lt (m n e : Z) : (m < n)%Z -> F2Q m e < F2Q n e.
Proof.
  intros H. unfold F2Q. apply Qmult_lt_compat_r.
  - apply pow2_pos.
  - now rewrite <- Zlt_Qlt.
Qed.

Lemma F2Q_le_inv (m n e : Z) : F2Q m e <= F2Q n e -> (m <= n)%Z.
Proof.
  intros H. destruct (Z_le_gt_dec m n) as [Hle|Hgt]; [exact Hle|].
  exfalso. assert (Hlt : (n < m)%Z) by lia.
  apply (F2Q_lt n m e) in Hlt. lra.
Qed.

Lemma F2Q_succ (m e : Z) : F2Q (m + 1) e == F2Q m e + pow2 e.
Proof. unfold F2Q. rewrite inject_Z_plus. change (inject_Z 1) with 1. lra. Qed.

Lemma F2Q_shift (m e k : Z) :
  (0 <= k)%Z -> F2Q (m * 2 ^ k) e == F2Q m (e + k).
Proof.
  intros H. unfold F2Q.
  rewrite inject_Z_mult, pow2_inject, pow2_add by exact H. lra.
Qed.

(** The number of binary digits of a mantissa. *)
Lemma digits2_pos_bounds (m : positive) :
  (2 ^ (Zpos (digits2_pos m) - 1) <= Zpos m < 2 ^ Zpos (digits2_pos m))%Z.
Proof.
  induction m as [p IH|p IH|]; cbn [digits2_pos].
  - rewrite Pos2Z.inj_succ.
    replace (Z.succ (Zpos (digits2_pos p)) - 1)%Z
      with (Z.succ (Zpos (digits2_pos p) - 1))%Z by lia.
    rewrite !Z.pow_succ_r by lia. lia.
  - rewrite Pos2Z.inj_succ.
    replace (Z.succ (Zpos (digits2_pos p)) - 1)%Z
      with (Z.succ (Zpos (digits2_pos p) - 1))%Z by lia.
    rewrite !Z.pow_succ_r by lia. lia.
  - cbn. lia.
Qed.

Lemma digits2_pos_unique (m : positive) (k : Z) :
  (2 ^ (k - 1) <= Zpos m < 2 ^ k)%Z -> Zpos (digits2_pos m) = k.
Proof.
  intros [Hlo Hhi]. pose proof (digits2_pos_bounds m) as [Dlo Dhi].
  assert (0 < k)%Z.
  { destruct (Z_lt_le_dec 0 k) as [H|H]; [exact H|].
    exfalso. destruct (Z.eq_dec k 0) as [->|Hn]; [cbn in Hhi; lia|].
    rewrite Z.pow_neg_r in Hhi by lia. lia. }
  assert (Zpos (digits2_pos m) - 1 < k)%Z.
  { apply (Z.pow_lt_mono_r_iff 2); lia. }
  assert (k - 1 < Zpos (digits2_pos m))%Z.
  { apply (Z.pow_lt_mono_r_iff 2); lia. }
  lia.
Qed.

Lemma located_bounds (x : Q) (m e : Z) (l : location) :
  located x m e l -> F2Q m e <= x /\ x < F2Q (m + 1) e.
Proof.
  pose proof (pow2_pos e). rewrite F2Q_succ.
  destruct l as [|[| |]]; cbn [located]; intros Hl; split; qlra.
Qed.

Lemma F2Q_double (p : positive) (e : Z) :
  F2Q (Zpos p~0) e == F2Q (Zpos p) (e + 1).
Proof.
  unfold F2Q. rewrite pow2_succ.
  change (Zpos p~0) with (2 * Zpos p)%Z. rewrite inject_Z_mult.
  change (inject_Z 2) with 2. lra.
Qed.

Lemma F2Q_double_1 (p : positive) (e : Z) :
  F2Q (Zpos p~1) e == F2Q (Zpos p) (e + 1) + pow2 e.
Proof.
  unfold F2Q. rewrite pow2_succ.
  change (Zpos p~1) with (2 * Zpos p + 1)%Z.
  rewrite inject_Z_plus, inject_Z_mult.
  change (inject_Z 2) with 2. change (inject_Z 1) with 1. lra.
Qed.

Lemma F2Q_0 (e : Z) : F2Q 0 e == 0.
Proof. unfold F2Q. change (inject_Z 0) with 0. lra. Qed.

Lemma F2Q_1 (e : Z) : F2Q 1 e == pow2 e.
Proof. unfold F2Q. change (inject_Z 1) with 1. lra. Qed.

(** One step of the shift to the right keeps the location of [x]. *)
Lemma shr_1_located (x : Q) (mrs : shr_record) (e : Z) :
  (0 <= shr_m mrs)%Z ->
  located x (shr_m mrs) e (loc_of_shr_record mrs) ->
  located x (shr_m (shr_1 mrs)) (e + 1) (loc_of_shr_record (shr_1 mrs))
  /\ shr_m (shr_1 mrs) = (shr_m mrs / 2)%Z.
Proof.
  destruct mrs as [m r s]. cbn [shr_m]. intros Hm Hloc.
  pose proof (pow2_pos e) as Hu. pose proof (pow2_succ e) as Hs.
  destruct m as [|[p|p|]|p]; [| | | |lia].
  - pose proof (F2Q_0 e) as H0. pose proof (F2Q_0 (e + 1)) as H1.
    split; [|reflexivity].
    destruct r, s; cbn [located loc_of_shr_record shr_1 shr_m orb] in *;
      try split; qlra.
  - pose proof (F2Q_double_1 p e) as Hd.
    split; [|cbn [shr_1 shr_m]; rewrite Pos2Z.inj_xI;
             apply Z.div_unique with 1%Z; lia].
    destruct r, s; cbn [located loc_of_shr_record shr_1 shr_m orb] in *;
      try split; qlra.
  - pose proof (F2Q_double p e) as Hd.
    split; [|cbn [shr_1 shr_m]; rewrite Pos2Z.inj_xO;
             apply Z.div_unique with 0%Z; lia].
    destruct r, s; cbn [located loc_of_shr_record shr_1 shr_m orb] in *;
      try split; qlra.
  - pose proof (F2Q_1 e) as H0. pose proof (F2Q_0 (e + 1)) as H1.
    split; [|reflexivity].
    destruct r, s; cbn [located loc_of_shr_record shr_1 shr_m orb] in *;
      try split; qlra.
Qed.

Lemma iter_pos_shr_1 (x : Q) (p : positive) :
  forall (mrs : shr_record) (e : Z),
    (0 <= shr_m mrs)%Z ->
    located x (shr_m mrs) e (loc_of_shr_record mrs) ->
    (0 <= shr_m (SpecFloat.iter_pos shr_1 p mrs))%Z
    /\ located x (shr_m (SpecFloat.iter_pos shr_1 p mrs)) (e + Zpos p)
         (loc_of_shr_record (SpecFloat.iter_pos shr_1 p mrs))
    /\ shr_m (SpecFloat.iter_pos shr_1 p mrs) = (shr_m mrs / 2 ^ Zpos p)%Z.
Proof.
  assert (Hone : forall mrs e,
             (0 <= shr_m mrs)%Z ->
             located x (shr_m mrs) e (loc_of_shr_record mrs) ->
             (0 <= shr_m (shr_1 mrs))%Z
             /\ located x (shr_m (shr_1 mrs)) (e + 1)
                  (loc_of_shr_record (shr_1 mrs))
             /\ shr_m (shr_1 mrs) = (shr_m mrs / 2 ^ 1)%Z).
  { intros mrs e Hm Hl. destruct (shr_1_located x mrs e Hm Hl) as [H1 H2].
    split; [|split]; [|exact H1|exact H2].
    rewrite H2. apply Z.div_pos; lia. }
  induction p as [p IH|p IH|]; intros mrs e Hm Hl; cbn [SpecFloat.iter_pos].
  - destruct (Hone mrs e Hm Hl) as (A1 & A2 & A3).
    destruct (IH _ _ A1 A2) as (B1 & B2 & B3).
    destruct (IH _ _ B1 B2) as (C1 & C2 & C3).
    split; [exact C1|]. split.
    + replace (e + Zpos p~1)%Z with (e + 1 + Zpos p + Zpos p)%Z by lia.
      exact C2.
    + rewrite C3, B3, A3, !Z.div_div by lia.
      rewrite <- !Z.pow_add_r by lia. f_equal. f_equal. lia.
  - destruct (IH _ _ Hm Hl) as (B1 & B2 & B3).
    destruct (IH _ _ B1 B2) as (C1 & C2 & C3).
    split; [exact C1|]. split.
    + replace (e + Zpos p~0)%Z with (e + Zpos p + Zpos p)%Z by lia.
      exact C2.
    + rewrite C3, B3, !Z.div_div by lia.
      rewrite <- !Z.pow_add_r by lia. f_equal. f_equal. lia.
  - apply Hone; assumption.
Qed.

Lemma shr_located (x : Q) (mrs : shr_record) (e n : Z) :
  (0 <= n)%Z -> (0 <= shr_m mrs)%Z ->
  located x (shr_m mrs) e (loc_of_shr_record mrs) ->
  snd (shr mrs e n) = (e + n)%Z
  /\ (0 <= shr_m (fst (shr mrs e n)))%Z
  /\ located x (shr_m (fst (shr mrs e n))) (e + n)
       (loc_of_shr_record (fst (shr mrs e n)))
  /\ shr_m (fst (shr mrs e n)) = (shr_m mrs / 2 ^ n)%Z.
Proof.
  intros Hn Hm Hl. destruct n as [|p|p]; [| |lia]; cbn [shr fst snd].
  - rewrite Z.add_0_r, Z.pow_0_r, Z.div_1_r. auto.
  - destruct (iter_pos_shr_1 x p mrs e Hm Hl) as (A & B & C). auto.
Qed.

Lemma shr_record_of_loc_m (m : Z) (l : location) :
  shr_m (shr_record_of_loc m l) = m.
Proof. destruct l as [|[| |]]; reflexivity. Qed.

Lemma loc_of_shr_record_of_loc (m : Z) (l : location) :
  loc_of_shr_record (shr_record_of_loc m l) = l.
Proof. destruct l as [|[| |]]; reflexivity. Qed.

Lemma round_nearest_even_cases (m : Z) (l : location) :
  round_nearest_even m l = m \/ round_nearest_even m l = (m + 1)%Z.
Proof.
  destruct l as [|[| |]]; cbn [round_nearest_even]; auto.
  destruct (Z.even m); auto.
Qed.

Lemma fexp_normal (z : Z) :
  (-1074 <= z - 53)%Z -> fexp prec emax z = (z - 53)%Z.
Proof. unfold fexp, SpecFloat.emin, prec, emax. lia. Qed.

Lemma shift_to_53_digits (mx : positive) :
  let d := Zpos (digits2_pos mx) in
  (53 <= d)%Z ->
  (2 ^ 52 <= Zpos mx / 2 ^ (d - 53) < 2 ^ 53)%Z.
Proof.
  intros d Hd. pose proof (digits2_pos_bounds mx) as [Hlo Hhi]. fold d in Hlo, Hhi.
  assert (H1 : (2 ^ (d - 1) = 2 ^ (d - 53) * 2 ^ 52)%Z).
  { rewrite <- Z.pow_add_r by lia. f_equal. lia. }
  assert (H2 : (2 ^ d = 2 ^ (d - 53) * 2 ^ 53)%Z).
  { rewrite <- Z.pow_add_r by lia. f_equal. lia. }
  assert (0 < 2 ^ (d - 53))%Z by (apply Z.pow_pos_nonneg; lia).
  split.
  - apply Z.div_le_lower_bound; lia.
  - apply Z.div_lt_upper_bound; lia.
Qed.

(** The rounding step on a located value whose mantissa has at least 53
    digits and whose result is a normal number: the mantissa is cut to 53
    digits, rounded to nearest with ties to even, and brought back to 53
    digits if the rounding carried into a 54th. *)
Lemma binary_round_aux_normal (sx : bool) (x : Q) (mx : positive) (ex : Z)
  (lx : location) :
  let e0 := (Zpos (digits2_pos mx) + ex - 53)%Z in
  located x (Zpos mx) ex lx ->
  (53 <= Zpos (digits2_pos mx))%Z ->
  (-1074 <= e0 < 971)%Z ->
  exists (m : Z) (l : location) (M : positive) (e : Z),
    located x m e0 l
    /\ (2 ^ 52 <= m < 2 ^ 53)%Z
    /\ binary_round_aux prec emax sx (Zpos mx) ex lx = S754_finite sx M e
    /\ (2 ^ 52 <= Zpos M < 2 ^ 53)%Z
    /\ F2Q (Zpos M) e == F2Q (round_nearest_even m l) e0
    /\ (e = e0 \/ e = e0 + 1)%Z.
Proof.
  intros e0 Hloc Hd He.
  set (d := Zpos (digits2_pos mx)) in *.
  unfold binary_round_aux, shr_fexp. cbn [Zdigits2]. fold d.
  rewrite fexp_normal by (fold e0; lia).
  replace (d + ex - 53 - ex)%Z with (d - 53)%Z by lia.
  destruct (shr_located x (shr_record_of_loc (Zpos mx) lx) ex (d - 53))
    as (E1 & P1 & L1 & M1).
  { lia. }
  { rewrite shr_record_of_loc_m. lia. }
  { now rewrite shr_record_of_loc_m, loc_of_shr_record_of_loc. }
  destruct (shr (shr_record_of_loc (Zpos mx) lx) ex (d - 53)) as [mrs1 e1].
  cbn [fst snd] in *. subst e1.
  replace (ex + (d - 53))%Z with e0 in * by (unfold e0; lia).
  rewrite shr_record_of_loc_m in M1.
  pose proof (shift_to_53_digits mx Hd) as Hm1. cbv zeta in Hm1. fold d in Hm1.
  rewrite <- M1 in Hm1.
  set (m := shr_m mrs1) in *. set (l := loc_of_shr_record mrs1) in *.
  exists m, l.
  change (2 ^ 52)%Z with 4503599627370496%Z in *.
  change (2 ^ 53)%Z with 9007199254740992%Z in *.
  destruct (Z.eq_dec (round_nearest_even m l) 9007199254740992) as [Hc|Hc].
  - (* the rounding carried *)
    rewrite Hc. cbn [Zdigits2 digits2_pos Pos.succ].
    rewrite fexp_normal by lia.
    replace (54 + e0 - 53 - e0)%Z with 1%Z by lia.
    cbn [shr shr_record_of_loc SpecFloat.iter_pos shr_1 shr_m orb].
    replace (e0 + 1 <=? emax - prec)%Z with true
      by (symmetry; apply Z.leb_le; unfold emax, prec; lia).
    exists 4503599627370496%positive, (e0 + 1)%Z.
    repeat split; try lia; try assumption.
    unfold F2Q. rewrite pow2_succ.
    change (inject_Z 9007199254740992) with (2 * inject_Z 4503599627370496).
    lra.
  - (* it did not *)
    assert (Hr : (4503599627370496 <= round_nearest_even m l < 9007199254740992)%Z).
    { destruct (round_nearest_even_cases m l) as [-> | Hs]; [lia|].
      rewrite Hs in *. lia. }
    destruct (round_nearest_even m l) as [|M|M] eqn:HM; [lia| |lia].
    assert (HdM : Zpos (digits2_pos M) = 53%Z).
    { apply digits2_pos_unique.
      change (2 ^ (53 - 1))%Z with 4503599627370496%Z.
      change (2 ^ 53)%Z with 9007199254740992%Z. lia. }
    cbn [Zdigits2]. rewrite HdM, fexp_normal by lia.
    replace (53 + e0 - 53 - e0)%Z with 0%Z by lia.
    cbn [shr shr_record_of_loc shr_m].
    replace (e0 <=? emax - prec)%Z with true
      by (symmetry; apply Z.leb_le; unfold emax, prec; lia).
    exists M, e0.
    repeat split; try lia; try assumption; try reflexivity.
Qed.

Lemma F2Q_pow (k e : Z) : (0 <= k)%Z -> F2Q (2 ^ k) e == pow2 (e + k).
Proof.
  intros H. rewrite <- (Z.mul_1_l (2 ^ k)), F2Q_shift by exact H. apply F2Q_1.
Qed.

Lemma round_nearest_even_range (m : Z) (l : location) :
  (m <= round_nearest_even m l <= m + 1)%Z.
Proof. destruct (round_nearest_even_cases m l) as [-> | ->]; lia. Qed.

Lemma round_nearest_even_mono (x y : Q) (m e : Z) (l l' : location) :
  located x m e l -> located y m e l' -> x <= y ->
  (round_nearest_even m l <= round_nearest_even m l')%Z.
Proof.
  intros Hx Hy Hxy. pose proof (pow2_pos e) as Hu.
  destruct l as [|[| |]], l' as [|[| |]];
    cbn [located round_nearest_even] in *;
    destruct (Z.even m); try lia; exfalso; qlra.
Qed.

(** Rounding is monotone. *)
Lemma rounds_mono (x y v w : Q) :
  rounds x v -> rounds y w -> x <= y -> v <= w.
Proof.
  intros (m & l & e & Hx & Hm & Hv) (m' & l' & e' & Hy & Hm' & Hw) Hxy.
  rewrite Hv, Hw.
  pose proof (round_nearest_even_range m l) as Hr.
  pose proof (round_nearest_even_range m' l') as Hr'.
  pose proof (located_bounds x m e l Hx) as [Hx1 Hx2].
  pose proof (located_bounds y m' e' l' Hy) as [Hy1 Hy2].
  destruct (Z.lt_trichotomy e e') as [Hlt|[Heq|Hgt]].
  - (* the binade of [x] is below that of [y] *)
    apply Qle_trans with (F2Q (2 ^ 53) e); [apply F2Q_le; lia|].
    apply Qle_trans with (F2Q (2 ^ 52) e'); [|apply F2Q_le; lia].
    rewrite !F2Q_pow by lia. apply pow2_le. lia.
  - subst e'. destruct (Z.lt_trichotomy m m') as [Hl|[He|Hg]].
    + apply F2Q_le. lia.
    + subst m'. apply F2Q_le. now apply (round_nearest_even_mono x y m e).
    + exfalso. assert (H : F2Q (m' + 1) e <= F2Q m e) by (apply F2Q_le; lia).
      qlra.
  - exfalso.
    assert (H1 : F2Q (m' + 1) e' <= F2Q (2 ^ 53) e') by (apply F2Q_le; lia).
    assert (H2 : F2Q (2 ^ 52) e <= F2Q m e) by (apply F2Q_le; lia).
    assert (H3 : F2Q (2 ^ 53) e' <= F2Q (2 ^ 52) e).
    { rewrite !F2Q_pow by lia. apply pow2_le. lia. }
    qlra.
Qed.

Lemma rounds_exact (x : Q) (m e : Z) :
  (2 ^ 52 <= m < 2 ^ 53)%Z -> x == F2Q m e -> rounds x x.
Proof. intros Hm Hx. exists m, loc_Exact, e. cbn. auto. Qed.

Lemma normal_pos (f : spec_float) (v : Q) (lo hi : Z) :
  normal f v lo hi -> 0 < v.
Proof.
  intros (M & e & _ & _ & Hv & _). rewrite Hv. unfold F2Q.
  apply Qmult_lt_0_compat; [|apply pow2_pos].
  change 0 with (inject_Z 0). rewrite <- Zlt_Qlt. lia.
Qed.

Lemma normal_weaken (f : spec_float) (v : Q) (lo hi lo' hi' : Z) :
  normal f v lo hi -> (lo' <= lo)%Z -> (hi <= hi')%Z -> normal f v lo' hi'.
Proof.
  intros (M & e & Hf & HM & Hv & He) Hlo Hhi. exists M, e.
  repeat split; try assumption; lia.
Qed.

Lemma normal_valid (f : spec_float) (v : Q) (lo hi : Z) :
  normal f v lo hi -> (-1074 <= lo)%Z -> (hi <= 971)%Z ->
  valid_binary f = true.
Proof.
  intros (M & e & -> & HM & _ & He) Hlo Hhi.
  cbn [SpecFloat.valid_binary]. unfold bounded, canonical_mantissa.
  assert (Hd : Zpos (digits2_pos M) = 53%Z).
  { apply digits2_pos_unique.
    change (2 ^ (53 - 1))%Z with (2 ^ 52)%Z. lia. }
  rewrite Hd, fexp_normal by lia.
  apply andb_true_intro. split.
  - apply Z.eqb_eq. lia.
  - apply Z.leb_le. unfold emax, prec. lia.
Qed.

(** On canonical numbers the comparison of [SFleb] is that of the
    values. *)
Lemma normal_leb (f g : spec_float) (v w : Q) (lo hi lo' hi' : Z) :
  normal f v lo hi -> normal g w lo' hi' -> v <= w ->
  SFleb f g = true.
Proof.
  intros (M & e & -> & HM & Hv & _) (M' & e' & -> & HM' & Hw & _) Hvw.
  rewrite Hv, Hw in Hvw. unfold SFleb, SFcompare.
  destruct (Z.compare_spec e e') as [Heq|Hlt|Hgt]; [|reflexivity|].
  - subst e'. apply F2Q_le_inv in Hvw.
    change (Pos.compare_cont Eq M M') with (Pos.compare M M').
    destruct (Pos.compare_spec M M'); try reflexivity. lia.
  - exfalso.
    assert (H1 : F2Q (Zpos M') e' < F2Q (2 ^ 53) e') by (apply F2Q_lt; lia).
    assert (H2 : F2Q (2 ^ 52) e <= F2Q (Zpos M) e) by (apply F2Q_le; lia).
    assert (H3 : F2Q (2 ^ 53) e' <= F2Q (2 ^ 52) e).
    { rewrite !F2Q_pow by lia. apply pow2_le. lia. }
    qlra.
Qed.

Lemma digits2_pos_between (m : positive) (a b : Z) :
  (0 <= a)%Z -> (2 ^ a <= Zpos m < 2 ^ b)%Z ->
  (a < Zpos (digits2_pos m) <= b)%Z.
Proof.
  intros Ha [Hlo Hhi]. pose proof (digits2_pos_bounds m) as [Dlo Dhi].
  assert (0 <= b)%Z.
  { destruct (Z_lt_le_dec b 0) as [H|H]; [|exact H].
    rewrite Z.pow_neg_r in Hhi by lia. lia. }
  split.
  - apply (Z.pow_lt_mono_r_iff 2); lia.
  - assert (Zpos (digits2_pos m) - 1 < b)%Z; [|lia].
    apply (Z.pow_lt_mono_r_iff 2); lia.
Qed.

Lemma Pos_iter_xO (p k : positive) :
  Zpos (Pos.iter xO p k) = (Zpos p * 2 ^ Zpos k)%Z.
Proof.
  induction k as [|k IH] using Pos.peano_ind.
  - cbn [Pos.iter]. rewrite Pos2Z.inj_xO. change (2 ^ 1)%Z with 2%Z. lia.
  - rewrite Pos.iter_succ, Pos2Z.inj_xO, IH, Pos2Z.inj_succ, Z.pow_succ_r by lia.
    lia.
Qed.

(** The conversion of a positive integer below 2^64. *)
Lemma binary_normalize_normal (p : positive) :
  (Zpos p < 2 ^ 64)%Z ->
  exists v : Q,
    normal (binary_normalize prec emax (Zpos p) 0 false) v (-52) 12
    /\ rounds (inject_Z (Zpos p)) v.
Proof.
  intros Hp. cbn [binary_normalize]. unfold binary_round.
  set (d := Zpos (digits2_pos p)).
  assert (Hd : (0 < d <= 64)%Z).
  { destruct (digits2_pos_between p 0 64) as [H1 H2]; [lia| |unfold d; lia].
    change (2 ^ 0)%Z with 1%Z. lia. }
  rewrite Z.add_0_r, fexp_normal by (fold d; lia). fold d.
  assert (Hx : inject_Z (Zpos p) == F2Q (Zpos p) 0).
  { unfold F2Q. rewrite pow2_0. lra. }
  destruct (Z_lt_le_dec d 53) as [Hsmall|Hbig].
  - (* fewer than 53 digits: the mantissa is first shifted to the left *)
    unfold shl_align.
    destruct (d - 53 - 0)%Z as [|k|k] eqn:Hk; [lia|lia|].
    assert (Hz : Zpos (Pos.iter xO p k) = (Zpos p * 2 ^ (53 - d))%Z).
    { rewrite Pos_iter_xO. f_equal. f_equal. lia. }
    assert (Hdz : Zpos (digits2_pos (Pos.iter xO p k)) = 53%Z).
    { apply digits2_pos_unique. rewrite Hz.
      pose proof (digits2_pos_bounds p) as [Dlo Dhi]. fold d in Dlo, Dhi.
      assert (E1 : (2 ^ (53 - 1) = 2 ^ (d - 1) * 2 ^ (53 - d))%Z).
      { rewrite <- Z.pow_add_r by lia. f_equal. lia. }
      assert (E2 : (2 ^ 53 = 2 ^ d * 2 ^ (53 - d))%Z).
      { rewrite <- Z.pow_add_r by lia. f_equal. lia. }
      rewrite E1, E2.
      assert (0 < 2 ^ (53 - d))%Z by (apply Z.pow_pos_nonneg; lia).
      split; [apply Z.mul_le_mono_nonneg_r|apply Z.mul_lt_mono_pos_r]; lia. }
    destruct (binary_round_aux_normal false (inject_Z (Zpos p))
                (Pos.iter xO p k) (d - 53) loc_Exact)
      as (m & l & M & e & Hl & Hm & Hr & HM & Hv & He).
    + cbn [located]. rewrite Hz, F2Q_shift by lia.
      replace (d - 53 + (53 - d))%Z with 0%Z by lia. exact Hx.
    + lia.
    + lia.
    + rewrite Hdz in *. exists (F2Q (Zpos M) e). split.
      * exists M, e. repeat split; try assumption; try reflexivity; lia.
      * exists m, l, (53 + (d - 53) - 53)%Z. auto.
  - unfold shl_align.
    destruct (d - 53 - 0)%Z as [|k|k] eqn:Hk; [| |lia].
    all: destruct (binary_round_aux_normal false (inject_Z (Zpos p)) p 0 loc_Exact)
      as (m & l & M & e & Hl & Hm & Hr & HM & Hv & He);
      [exact Hx|fold d; lia|fold d; lia|].
    all: fold d in Hl, Hv, He; exists (F2Q (Zpos M) e); split;
      [exists M, e; repeat split; try assumption; try reflexivity; lia
      |exists m, l, (d + 0 - 53)%Z; auto].
Qed.

(** The product of two positive normal numbers. *)
Lemma SFmul_normal (a b : spec_float) (va vb : Q) (la ha lb hb : Z) :
  normal a va la ha -> normal b vb lb hb ->
  (-1074 <= la + lb + 52)%Z -> (ha + hb + 53 < 971)%Z ->
  exists v : Q,
    normal (SFmul prec emax a b) v (la + lb + 52) (ha + hb + 54)
    /\ rounds (va * vb) v.
Proof.
  intros (Ma & ea & -> & HMa & Hva & Hea) (Mb & eb & -> & HMb & Hvb & Heb) Hlo Hhi.
  cbn [SFmul xorb].
  change (2 ^ 52)%Z with 4503599627370496%Z in *.
  change (2 ^ 53)%Z with 9007199254740992%Z in *.
  assert (Hprod : (2 ^ 104 <= Zpos (Ma * Mb) < 2 ^ 106)%Z).
  { rewrite Pos2Z.inj_mul.
    change (2 ^ 104)%Z with (4503599627370496 * 4503599627370496)%Z.
    change (2 ^ 106)%Z with (9007199254740992 * 9007199254740992)%Z.
    split; [apply Z.mul_le_mono_nonneg|apply Z.mul_lt_mono_nonneg]; lia. }
  pose proof (digits2_pos_between (Ma * Mb) 104 106 ltac:(lia) Hprod) as Hd.
  destruct (binary_round_aux_normal false (va * vb) (Ma * Mb) (ea + eb) loc_Exact)
    as (m & l & M & e & Hl & Hm & Hr & HM & Hv & He).
  - cbn [located]. rewrite Hva, Hvb. unfold F2Q.
    rewrite Pos2Z.inj_mul, inject_Z_mult, pow2_add. lra.
  - lia.
  - lia.
  - exists (F2Q (Zpos M) e). split.
    + exists M, e. repeat split; try assumption; try reflexivity; lia.
    + exists m, l, (Zpos (digits2_pos (Ma * Mb)) + (ea + eb) - 53)%Z. auto.
Qed.

Lemma new_location_spec (nb k : Z) :
  (0 < nb)%Z -> (0 <= k < nb)%Z ->
  match new_location nb k with
  | loc_Exact => k = 0%Z
  | loc_Inexact Lt => (0 < k /\ 2 * k < nb)%Z
  | loc_Inexact Eq => (2 * k = nb)%Z
  | loc_Inexact Gt => (nb < 2 * k)%Z
  end.
Proof.
  intros Hnb Hk. unfold new_location, new_location_even, new_location_odd.
  destruct (Z.even nb) eqn:Heven; destruct (Z.eqb_spec k 0) as [H0|H0];
    try exact H0.
  - destruct (Z.compare_spec (2 * k) nb); lia.
  - assert (Hodd : Z.odd nb = true) by (rewrite <- Z.negb_even, Heven; reflexivity).
    apply Z.odd_spec in Hodd as [j Hj].
    destruct (Z.compare_spec (2 * k + 1) nb); lia.
Qed.

(** The location of [q + k/nb] on the grid, from the remainder [k] of a
    division by [nb]. *)
Lemma located_remainder (x : Q) (q e nb k : Z) :
  (0 < nb)%Z -> (0 <= k < nb)%Z ->
  x * inject_Z nb == F2Q q e * inject_Z nb + inject_Z k * pow2 e ->
  located x q e (new_location nb k).
Proof.
  intros Hnb Hk Hx. pose proof (new_location_spec nb k Hnb Hk) as Hloc.
  pose proof (pow2_pos e) as Hu.
  assert (Hn : 0 < inject_Z nb).
  { change 0 with (inject_Z 0). now rewrite <- Zlt_Qlt. }
  assert (Hk0 : 0 <= inject_Z k).
  { change 0 with (inject_Z 0). rewrite <- Zle_Qle. lia. }
  assert (Hkn : inject_Z k < inject_Z nb) by (rewrite <- Zlt_Qlt; lia).
  set (n := inject_Z nb) in *. set (c := inject_Z k) in *.
  set (v := F2Q q e) in *. set (u := pow2 e) in *.
  destruct (new_location nb k) as [|[| |]]; cbn [located]; fold v u.
  - subst k. change c with 0 in Hx.
    apply (Qmult_inj_r _ _ n); [lra|]. lra.
  - assert (H2 : 2 * c == n).
    { unfold c, n. change 2 with (inject_Z 2).
      rewrite <- inject_Z_mult. now rewrite Hloc. }
    apply (Qmult_inj_r _ _ n); [lra|]. rewrite Hx.
    setoid_replace ((v + (1 # 2) * u) * n) with (v * n + (1 # 2) * n * u) by ring.
    rewrite <- H2. ring.
  - destruct Hloc as [Hpos H2].
    assert (Hc : 0 < c).
    { unfold c. change 0 with (inject_Z 0). now rewrite <- Zlt_Qlt. }
    assert (H2' : 2 * c < n).
    { unfold c, n. change 2 with (inject_Z 2).
      rewrite <- inject_Z_mult, <- Zlt_Qlt. exact H2. }
    split; apply (Qmult_lt_r _ _ n Hn); rewrite Hx; clearbody n c v u; nra.
  - assert (H2' : n < 2 * c).
    { unfold c, n. change 2 with (inject_Z 2).
      rewrite <- inject_Z_mult, <- Zlt_Qlt. exact Hloc. }
    split; apply (Qmult_lt_r _ _ n Hn); rewrite ?Hx; clearbody n c v u; nra.
Qed.

(** The quotient of two positive normal numbers. *)
Lemma SFdiv_normal (a b : spec_float) (va vb : Q) (la ha lb hb : Z) :
  normal a va la ha -> normal b vb lb hb ->
  (-1074 <= la - hb - 53)%Z -> (ha - lb - 52 < 971)%Z ->
  exists v : Q,
    normal (SFdiv prec emax a b) v (la - hb - 53) (ha - lb - 51)
    /\ rounds (va / vb) v.
Proof.
  intros (Ma & ea & -> & HMa & Hva & Hea) (Mb & eb & -> & HMb & Hvb & Heb) Hlo Hhi.
  cbn [SFdiv xorb]. unfold SFdiv_core_binary. cbn [Zdigits2].
  change (2 ^ 52)%Z with 4503599627370496%Z in *.
  change (2 ^ 53)%Z with 9007199254740992%Z in *.
  assert (Hda : Zpos (digits2_pos Ma) = 53%Z).
  { apply digits2_pos_unique.
    change (2 ^ (53 - 1))%Z with 4503599627370496%Z.
    change (2 ^ 53)%Z with 9007199254740992%Z. lia. }
  assert (Hdb : Zpos (digits2_pos Mb) = 53%Z).
  { apply digits2_pos_unique.
    change (2 ^ (53 - 1))%Z with 4503599627370496%Z.
    change (2 ^ 53)%Z with 9007199254740992%Z. lia. }
  rewrite Hda, Hdb, fexp_normal by lia.
  replace (Z.min (53 + ea - (53 + eb) - 53) (ea - eb))%Z
    with (ea - eb - 53)%Z by lia.
  replace (ea - eb - (ea - eb - 53))%Z with 53%Z by lia.
  rewrite Z.shiftl_mul_pow2 by lia.
  change (2 ^ 53)%Z with 9007199254740992%Z.
  pose proof (Z_div_mod (Zpos Ma * 9007199254740992) (Zpos Mb) ltac:(lia)) as Hdiv.
  destruct (Z.div_eucl (Zpos Ma * 9007199254740992) (Zpos Mb)) as [q r].
  destruct Hdiv as [Hqr Hr].
  assert (Hq : (4503599627370496 <= q < 18014398509481984)%Z) by nia.
  destruct q as [|qp|qp]; [lia| |lia].
  pose proof (digits2_pos_between qp 52 54 ltac:(lia)) as Hdq.
  change (2 ^ 52)%Z with 4503599627370496%Z in Hdq.
  change (2 ^ 54)%Z with 18014398509481984%Z in Hdq.
  specialize (Hdq Hq).
  destruct (binary_round_aux_normal false (va / vb) qp (ea - eb - 53)
              (new_location (Zpos Mb) r))
    as (m & l & M & e & Hl & Hm & Hres & HM & Hv & He).
  - apply located_remainder; [lia|lia|].
    assert (Hbpos : 0 < vb).
    { rewrite Hvb. unfold F2Q. apply Qmult_lt_0_compat; [|apply pow2_pos].
      change 0 with (inject_Z 0). rewrite <- Zlt_Qlt. lia. }
    assert (Hx : va / vb * vb == va) by (field; lra).
    assert (Hpa : pow2 ea == pow2 53 * pow2 (ea - eb - 53) * pow2 eb).
    { replace ea with (53 + (ea - eb - 53) + eb)%Z at 1 by lia.
      rewrite !pow2_add. reflexivity. }
    assert (Hz : inject_Z (Zpos Ma) * pow2 53
                 == inject_Z (Zpos qp) * inject_Z (Zpos Mb) + inject_Z r).
    { rewrite <- pow2_inject by lia.
      change (2 ^ 53)%Z with 9007199254740992%Z.
      rewrite <- !inject_Z_mult, <- inject_Z_plus, Hqr.
      apply inject_Z_injective. lia. }
    pose proof (pow2_pos eb) as Hub.
    apply (Qmult_inj_r _ _ (pow2 eb)); [lra|].
    transitivity (va / vb * vb).
    { rewrite Hvb. unfold F2Q. ring. }
    rewrite Hx, Hva. unfold F2Q. rewrite Hpa.
    transitivity (inject_Z (Zpos Ma) * pow2 53 * (pow2 (ea - eb - 53) * pow2 eb));
      [ring|].
    rewrite Hz. ring.
  - lia.
  - lia.
  - exists (F2Q (Zpos M) e). split.
    + exists M, e. repeat split; try assumption; try reflexivity; lia.
    + exists m, l, (Zpos (digits2_pos qp) + (ea - eb - 53) - 53)%Z. auto.
Qed.

Lemma normal_value (f : spec_float) (v : Q) (lo hi : Z) :
  normal f v lo hi -> v == SF2Q f.
Proof. intros (M & e & -> & _ & Hv & _). exact Hv. Qed.

Lemma located_proper (x y : Q) (m e : Z) (l : location) :
  x == y -> located x m e l -> located y m e l.
Proof.
  intros Hxy. destruct l as [|[| |]]; cbn [located]; rewrite Hxy; auto.
Qed.

Lemma rounds_proper (x y v w : Q) :
  x == y -> v == w -> rounds x v -> rounds y w.
Proof.
  intros Hxy Hvw (m & l & e & Hl & Hm & Hv). exists m, l, e.
  split; [now apply (located_proper x y)|]. split; [exact Hm|].
  now rewrite <- Hvw.
Qed.

Lemma normal_canonical (f : spec_float) (v : Q) (lo hi : Z) :
  normal f v lo hi -> canonical f lo hi.
Proof.
  intros H. pose proof (normal_value f v lo hi H) as Hv.
  destruct H as (M & e & Hf & HM & _ & He). exists M, e.
  repeat split; try assumption; try lia. subst f. reflexivity.
Qed.

(** The three operations of the percentage, on numbers. *)
Lemma Number_of_N_pos (p : positive) :
  (Zpos p < 2 ^ 64)%Z ->
  canonical (Prim2SF (Number_of_N (Npos p))) (-52) 12
  /\ rounds (inject_Z (Zpos p)) (SF2Q (Prim2SF (Number_of_N (Npos p)))).
Proof.
  intros Hp. destruct (binary_normalize_normal p Hp) as (v & Hn & Hr).
  unfold Number_of_N. cbn [Z.of_N].
  rewrite Prim2SF_SF2Prim by (apply (normal_valid _ v (-52) 12); [exact Hn|lia..]).
  split; [now apply (normal_canonical _ v)|].
  apply (rounds_proper (inject_Z (Zpos p)) _ v); [reflexivity| |exact Hr].
  now apply (normal_value _ _ (-52) 12).
Qed.

Lemma div_canonical (a b : float) (la ha lb hb : Z) :
  canonical (Prim2SF a) la ha -> canonical (Prim2SF b) lb hb ->
  (-1074 <= la - hb - 53)%Z -> (ha - lb - 52 < 971)%Z ->
  canonical (Prim2SF (a / b)) (la - hb - 53) (ha - lb - 51)
  /\ rounds (SF2Q (Prim2SF a) / SF2Q (Prim2SF b)) (SF2Q (Prim2SF (a / b))).
Proof.
  intros Ha Hb Hlo Hhi. rewrite div_spec. unfold SF64div.
  destruct (SFdiv_normal _ _ _ _ _ _ _ _ Ha Hb Hlo Hhi) as (v & Hn & Hr).
  split; [now apply (normal_canonical _ v)|].
  eapply rounds_proper; [reflexivity| |exact Hr].
  now apply (normal_value _ _ (la - hb - 53) (ha - lb - 51)).
Qed.

Lemma mul_canonical (a b : float) (la ha lb hb : Z) :
  canonical (Prim2SF a) la ha -> canonical (Prim2SF b) lb hb ->
  (-1074 <= la + lb + 52)%Z -> (ha + hb + 53 < 971)%Z ->
  canonical (Prim2SF (a * b)) (la + lb + 52) (ha + hb + 54)
  /\ rounds (SF2Q (Prim2SF a) * SF2Q (Prim2SF b)) (SF2Q (Prim2SF (a * b))).
Proof.
  intros Ha Hb Hlo Hhi. rewrite mul_spec. unfold SF64mul.
  destruct (SFmul_normal _ _ _ _ _ _ _ _ Ha Hb Hlo Hhi) as (v & Hn & Hr).
  split; [now apply (normal_canonical _ v)|].
  eapply rounds_proper; [reflexivity| |exact Hr].
  now apply (normal_value _ _ (la + lb + 52) (ha + hb + 54)).
Qed.

Lemma canonical_100 : canonical (Prim2SF 100) (-46) (-46).
Proof.
  exists 7036874417766400%positive, (-46)%Z.
  split; [vm_compute; reflexivity|].
  change (2 ^ 52)%Z with 4503599627370496%Z.
  change (2 ^ 53)%Z with 9007199254740992%Z.
  repeat split; try lia.
Qed.

Lemma value_100 : SF2Q (Prim2SF 100) == 100.
Proof. vm_compute. reflexivity. Qed.

Lemma rounds_1 : rounds 1 1.
Proof.
  apply (rounds_exact 1 (2 ^ 52) (-52)).
  - change (2 ^ 52)%Z with 4503599627370496%Z.
    change (2 ^ 53)%Z with 9007199254740992%Z. lia.
  - vm_compute. reflexivity.
Qed.

Lemma rounds_100 : rounds 100 100.
Proof.
  apply (rounds_exact 100 7036874417766400 (-46)).
  - change (2 ^ 52)%Z with 4503599627370496%Z.
    change (2 ^ 53)%Z with 9007199254740992%Z. lia.
  - vm_compute. reflexivity.
Qed.

Lemma round_half_up_spec (m : positive) (e : Z) :
  (e < 0)%Z ->
  (0 <= round_half_up m e)%Z
  /\ inject_Z (round_half_up m e) <= F2Q (Zpos m) e + (1 # 2)
  /\ F2Q (Zpos m) e + (1 # 2) < inject_Z (round_half_up m e) + 1.
Proof.
  intros He. unfold round_half_up.
  set (N := (2 * Zpos m + 2 ^ (- e))%Z). set (D := (2 ^ (1 - e))%Z).
  assert (HD : (0 < D)%Z) by (apply Z.pow_pos_nonneg; lia).
  assert (HN : (0 <= N)%Z).
  { unfold N. assert (0 < 2 ^ (- e))%Z by (apply Z.pow_pos_nonneg; lia). lia. }
  pose proof (Z.mul_div_le N D HD) as Hlo.
  pose proof (Z.mul_succ_div_gt N D HD) as Hhi.
  set (r := (N / D)%Z) in *.
  assert (HDq : 0 < inject_Z D).
  { change 0 with (inject_Z 0). now rewrite <- Zlt_Qlt. }
  assert (Hx : (F2Q (Zpos m) e + (1 # 2)) * inject_Z D == inject_Z N).
  { unfold N, D, F2Q.
    rewrite inject_Z_plus, inject_Z_mult, !pow2_inject by lia.
    replace (1 - e)%Z with (- e + 1)%Z by lia. rewrite pow2_succ.
    pose proof (pow2_opp e) as Ho. change (inject_Z 2) with 2.
    transitivity (2 * inject_Z (Zpos m) * (pow2 e * pow2 (- e)) + pow2 (- e));
      [ring|]. rewrite Ho. ring. }
  split; [apply Z.div_pos; lia|]. split.
  - apply (Qmult_le_r _ _ (inject_Z D) HDq). rewrite Hx, <- inject_Z_mult.
    rewrite <- Zle_Qle. lia.
  - apply (Qmult_lt_r _ _ (inject_Z D) HDq). rewrite Hx.
    change 1 with (inject_Z 1). rewrite <- inject_Z_plus, <- inject_Z_mult.
    rewrite <- Zlt_Qlt. lia.
Qed.

Lemma canonical_pos (f : spec_float) (lo hi : Z) :
  canonical f lo hi -> 0 < SF2Q f.
Proof. apply normal_pos. Qed.

Lemma Number_of_N_mono (a b : positive) :
  (a <= b)%positive -> (Zpos b < 2 ^ 64)%Z ->
  SF2Q (Prim2SF (Number_of_N (Npos a))) <= SF2Q (Prim2SF (Number_of_N (Npos b))).
Proof.
  intros Hab Hb.
  destruct (Number_of_N_pos a) as [_ Ha]; [lia|].
  destruct (Number_of_N_pos b Hb) as [_ Hb'].
  apply (rounds_mono _ _ _ _ Ha Hb'). rewrite <- Zle_Qle. lia.
Qed.

Lemma quotient_facts (l t : positive) :
  (l <= t)%positive -> (Zpos t < 2 ^ 64)%Z ->
  let q := (Number_of_N (Npos l) / Number_of_N (Npos t))%float in
  canonical (Prim2SF q) (-117) 13
  /\ rounds (SF2Q (Prim2SF (Number_of_N (Npos l)))
             / SF2Q (Prim2SF (Number_of_N (Npos t)))) (SF2Q (Prim2SF q))
  /\ SF2Q (Prim2SF q) <= 1.
Proof.
  intros Hlt Ht q.
  destruct (Number_of_N_pos l) as [Cl Rl]; [lia|].
  destruct (Number_of_N_pos t Ht) as [Ct Rt].
  destruct (div_canonical _ _ _ _ _ _ Cl Ct) as [Cq Rq]; [lia..|].
  split; [exact Cq|]. split; [exact Rq|].
  apply (rounds_mono _ 1 _ 1 Rq rounds_1).
  pose proof (canonical_pos _ _ _ Ct) as Hpos.
  pose proof (Number_of_N_mono l t Hlt Ht) as Hle.
  apply Qle_shift_div_r; [exact Hpos|]. lra.
Qed.

Lemma scaled_facts (l t : positive) :
  (l <= t)%positive -> (Zpos t < 2 ^ 64)%Z ->
  canonical (Prim2SF (scaled l t)) (-111) 21
  /\ SF2Q (Prim2SF (scaled l t)) <= 100.
Proof.
  intros Hlt Ht. destruct (quotient_facts l t Hlt Ht) as (Cq & _ & Hq1).
  destruct (mul_canonical _ _ _ _ _ _ Cq canonical_100) as [Cp Rp]; [lia..|].
  split; [exact Cp|].
  apply (rounds_mono _ 100 _ 100 Rp rounds_100).
  rewrite value_100. lra.
Qed.

Lemma scaled_mono (l1 l2 t : positive) :
  (l1 <= l2)%positive -> (l2 <= t)%positive -> (Zpos t < 2 ^ 64)%Z ->
  SF2Q (Prim2SF (scaled l1 t)) <= SF2Q (Prim2SF (scaled l2 t)).
Proof.
  intros H12 H2t Ht.
  assert (H1t : (l1 <= t)%positive) by lia.
  destruct (quotient_facts l1 t H1t Ht) as (Cq1 & Rq1 & _).
  destruct (quotient_facts l2 t H2t Ht) as (Cq2 & Rq2 & _).
  destruct (mul_canonical _ _ _ _ _ _ Cq1 canonical_100) as [_ Rp1]; [lia..|].
  destruct (mul_canonical _ _ _ _ _ _ Cq2 canonical_100) as [_ Rp2]; [lia..|].
  apply (rounds_mono _ _ _ _ Rp1 Rp2).
  assert (Hq : SF2Q (Prim2SF (Number_of_N (Npos l1) / Number_of_N (Npos t)))
               <= SF2Q (Prim2SF (Number_of_N (Npos l2) / Number_of_N (Npos t)))).
  { apply (rounds_mono _ _ _ _ Rq1 Rq2).
    destruct (Number_of_N_pos t Ht) as [Ct _].
    pose proof (canonical_pos _ _ _ Ct) as Hpos.
    pose proof (Number_of_N_mono l1 l2 H12 ltac:(lia)) as Hle.
    unfold Qdiv. apply Qmult_le_compat_r; [exact Hle|].
    apply Qinv_le_0_compat. lra. }
  rewrite value_100. lra.
Qed.

Lemma progress_percent_zero (t : positive) :
  (Zpos t < 2 ^ 64)%Z ->
  Api.progress_percent 0 (Npos t) = Number_of_N 0 /\ percent 0 (Npos t) = 0%Z.
Proof.
  intros Ht. destruct (Number_of_N_pos t Ht) as [(M & e & Hf & _) _].
  assert (Hq : (Number_of_N 0 / Number_of_N (Npos t))%float = 0%float).
  { apply Prim2SF_inj. rewrite div_spec, Hf. reflexivity. }
  unfold Api.progress_percent, percent. rewrite Hq. split; reflexivity.
Qed.

Lemma progress_percent_pos (l t : positive) :
  (l <= t)%positive -> (Zpos t < 2 ^ 64)%Z ->
  Api.progress_percent (Npos l) (Npos t)
  = Number_of_N (Z.to_N (percent (Npos l) (Npos t)))
  /\ (0 <= percent (Npos l) (Npos t) <= 100)%Z
  /\ inject_Z (percent (Npos l) (Npos t))
     <= SF2Q (Prim2SF (scaled l t)) + (1 # 2)
  /\ SF2Q (Prim2SF (scaled l t)) + (1 # 2)
     < inject_Z (percent (Npos l) (Npos t)) + 1.
Proof.
  intros Hlt Ht. destruct (scaled_facts l t Hlt Ht) as [Cp Hp].
  unfold Api.progress_percent, percent. fold (scaled l t).
  destruct Cp as (M & e & Hf & HM & _ & He).
  assert (Hneg : (e < 0)%Z).
  { rewrite Hf in Hp. cbn [SF2Q] in Hp.
    destruct (Z_lt_le_dec e 0) as [H|H]; [exact H|]. exfalso.
    assert (H1 : F2Q (2 ^ 52) 0 <= F2Q (Zpos M) 0) by (apply F2Q_le; lia).
    assert (H2 : F2Q (Zpos M) 0 <= F2Q (Zpos M) e).
    { unfold F2Q. apply Qmult_le_l.
      - change 0 with (inject_Z 0). rewrite <- Zlt_Qlt. lia.
      - now apply pow2_le. }
    assert (H3 : F2Q (2 ^ 52) 0 == 4503599627370496) by (vm_compute; reflexivity).
    qlra. }
  destruct (round_half_up_spec M e Hneg) as (Hr0 & Hr1 & Hr2).
  unfold Math_round. rewrite Hf in *. cbn [SF2Q] in *.
  replace (0 <=? e)%Z with false by (symmetry; apply Z.leb_gt; exact Hneg).
  fold (round_half_up M e).
  assert (H100 : (round_half_up M e <= 100)%Z).
  { assert (H : inject_Z (round_half_up M e) < inject_Z 101).
    { change (inject_Z 101) with 101. qlra. }
    rewrite <- Zlt_Qlt in H. lia. }
  repeat split; try assumption.
  destruct (Z.eqb_spec (round_half_up M e) 0) as [E|E].
  - rewrite E. reflexivity.
  - unfold Number_of_N. rewrite Z2N.id by exact Hr0. reflexivity.
Qed.

Lemma percent_mono (l1 l2 t : N) :
  (l1 <= l2)%N -> (l2 <= t)%N -> (0 < t)%N -> (Z.of_N t < 2 ^ 64)%Z ->
  (percent l1 t <= percent l2 t)%Z.
Proof.
  intros H12 H2t Ht0 Ht.
  destruct t as [|t]; [lia|]. destruct l2 as [|l2].
  - assert (l1 = 0%N) by lia. subst l1. lia.
  - destruct l1 as [|l1].
    + rewrite (proj2 (progress_percent_zero t Ht)).
      now destruct (progress_percent_pos l2 t) as (_ & [H _] & _); [lia| |].
    + destruct (progress_percent_pos l1 t) as (_ & _ & A1 & _); [lia|exact Ht|].
      destruct (progress_percent_pos l2 t) as (_ & _ & _ & B2); [lia|exact Ht|].
      pose proof (scaled_mono l1 l2 t ltac:(lia) ltac:(lia) Ht) as Hm.
      assert (H : inject_Z (percent (Npos l1) (Npos t))
                  < inject_Z (percent (Npos l2) (Npos t) + 1)).
      { rewrite inject_Z_plus. change (inject_Z 1) with 1. lra. }
      rewrite <- Zlt_Qlt in H. lia.
Qed.

Lemma progress_percent_is_percent (l t : N) :
  (l <= t)%N -> (0 < t)%N -> (Z.of_N t < 2 ^ 64)%Z ->
  Api.progress_percent l t = Number_of_N (Z.to_N (percent l t))
  /\ (0 <= percent l t <= 100)%Z.
Proof.
  intros Hlt Ht0 Ht. destruct t as [|t]; [lia|]. destruct l as [|l].
  - destruct (progress_percent_zero t Ht) as [H1 H2]. rewrite H1, H2.
    split; [reflexivity|lia].
  - destruct (progress_percent_pos l t) as (H1 & H2 & _); [lia|exact Ht|].
    auto.
Qed.

Lemma Number_of_N_leb (a b : N) :
  (a <= b)%N -> (Z.of_N b < 2 ^ 64)%Z ->
  (Number_of_N a <=? Number_of_N b)%float = true.
Proof.
  intros Hab Hb. rewrite leb_spec.
  assert (H0 : Prim2SF (Number_of_N 0) = S754_zero false)
    by (vm_compute; reflexivity).
  destruct b as [|b].
  - assert (a = 0%N) by lia. subst a. rewrite H0. reflexivity.
  - destruct (Number_of_N_pos b Hb) as [Cb _]. destruct a as [|a].
    + rewrite H0. destruct Cb as (M & e & -> & _). reflexivity.
    + destruct (Number_of_N_pos a) as [Ca _]; [lia|].
      apply (normal_leb _ _ _ _ _ _ _ _ Ca Cb).
      apply Number_of_N_mono; [lia|exact Hb].
Qed.

End Binary64Facts.

(** ** The upload progress *)

Lemma uploadDocument_reports (events : list Api.XhrEvent) :
  fst (Api.uploadDocument_events true events)
  = map (fun lt => Api.progress_percent (fst lt) (snd lt))
        (computable_progress events).
Proof.
  induction events as [|ev events IH]; [reflexivity|].
  cbn [Api.uploadDocument_events computable_progress flat_map].
  fold (computable_progress events).
  destruct (Api.uploadDocument_events true events) as [reports settled].
  cbn [fst] in IH. subst reports.
  destruct ev as [[|] loaded total|xhr_status parsed|]; cbn [andb fst app map];
    try reflexivity.
  destruct ((200 <=? xhr_status)%N && (xhr_status <? 300)%N); [|reflexivity].
  destruct parsed; reflexivity.
Qed.

Lemma percent_reports_sorted (t : N) (loaded : list N) :
  (0 < t)%N -> (Z.of_N t < 2 ^ 64)%Z ->
  Forall (fun l => (l <= t)%N) loaded ->
  Sorted N.le loaded ->
  Sorted float_le (map (fun l => Api.progress_percent l t) loaded).
Proof.
  intros Ht0 Ht Hall Hs.
  induction Hs as [|l ls Hs IH Hd]; cbn [map]; [constructor|].
  inversion Hall as [|? ? Hl Hls]; subst.
  constructor; [now apply IH|].
  destruct Hd as [|l' ls' Hll']; cbn [map]; constructor.
  inversion Hls as [|? ? Hl' _]; subst.
  unfold float_le.
  destruct (Binary64Facts.progress_percent_is_percent l t Hl Ht0 Ht) as [-> [Hp0 Hp1]].
  destruct (Binary64Facts.progress_percent_is_percent l' t Hl' Ht0 Ht) as [-> [Hq0 Hq1]].
  apply Binary64Facts.Number_of_N_leb.
  - pose proof (Binary64Facts.percent_mono l l' t Hll' Hl' Ht0 Ht). lia.
  - change (2 ^ 64)%Z with 18446744073709551616%Z. lia.
Qed.

(** Binary64 rounding shows in the percentage: 29 of 200 bytes is 14.5%
    exactly, but [29 / 200 * 100] is just below 14.5 and rounds to 14. *)
Example progress_percent_29_of_200 : Api.progress_percent 29 200 = 14%float.
Proof. vm_compute. reflexivity. Qed.

Example progress_percent_1_of_3 : Api.progress_percent 1 3 = 33%float.
Proof. vm_compute. reflexivity. Qed.

(** C8.  The value handed to the progress callback is
    [Math.round((loaded / total) * 100)], computed on binary64 numbers
    with every operation rounded to nearest.  Over the progress events
    of one upload that have a computable length, with one [total] (a
    positive 64-bit count, as [lengthComputable] implies) and [loaded]
    counts that never decrease and never exceed it, the reported values
    never decrease, and each is an integer between 0 and 100. *)
Theorem upload_progress_is_monotone (events : list Api.XhrEvent) (t : N) :
  (0 < t < 2 ^ 64)%N ->
  Forall (fun lt => snd lt = t /\ (fst lt <= t)%N) (computable_progress events) ->
  Sorted N.le (map fst (computable_progress events)) ->
  let reports := fst (Api.uploadDocument_events true events) in
  reports
  = map (fun lt => Math_round (Number_of_N (fst lt) / Number_of_N (snd lt) * 100)%float)
        (computable_progress events)
  /\ Sorted float_le reports
  /\ Forall (fun p => float_le 0%float p /\ float_le p 100%float
                      /\ exists k : N, (k <= 100)%N /\ p = Number_of_N k)
            reports.
Proof.
  intros [Ht0 Ht] Hall Hsorted reports.
  assert (Ht' : (Z.of_N t < 2 ^ 64)%Z).
  { change (2 ^ 64)%Z with (Z.of_N (2 ^ 64)). lia. }
  assert (Hreports : reports
            = map (fun l => Api.progress_percent l t)
                  (map fst (computable_progress events))).
  { unfold reports. rewrite uploadDocument_reports, map_map.
    apply map_ext_in. intros lt Hin.
    rewrite Forall_forall in Hall. destruct (Hall lt Hin) as [-> _].
    reflexivity. }
  assert (Hbound : Forall (fun l => (l <= t)%N)
                          (map fst (computable_progress events))).
  { rewrite Forall_map. apply (Forall_impl _ (P := fun lt => snd lt = t /\ (fst lt <= t)%N));
      [|exact Hall]. intros lt [_ H]. exact H. }
  split; [apply uploadDocument_reports|]. split.
  - rewrite Hreports. now apply percent_reports_sorted.
  - rewrite Hreports, Forall_map.
    apply (Forall_impl _ (P := fun l => (l <= t)%N)); [|exact Hbound].
    intros l Hl.
    destruct (Binary64Facts.progress_percent_is_percent l t Hl Ht0 Ht') as [-> [Hp0 Hp1]].
    assert (H64 : (Z.of_N 100 < 2 ^ 64)%Z) by reflexivity.
    split; [|split].
    + change 0%float with (Number_of_N 0).
      apply Binary64Facts.Number_of_N_leb; [lia|].
      change (2 ^ 64)%Z with 18446744073709551616%Z. lia.
    + replace 100%float with (Number_of_N 100) by (vm_compute; reflexivity).
      apply Binary64Facts.Number_of_N_leb; [lia|exact H64].
    + exists (Z.to_N (Binary64.percent l t)). split; [lia|reflexivity].
Qed.

Lemma upload_progress_is_monotone_witness :
  fst (Api.uploadDocument_events true sample_upload)
  = [Api.progress_percent 0 4096; Api.progress_percent 1024 4096;
     Api.progress_percent 4096 4096]
  /\ Sorted float_le (fst (Api.uploadDocument_events true sample_upload)).
Proof.
  destruct (upload_progress_is_monotone sample_upload 4096) as (H1 & H2 & _).
  - split; reflexivity.
  - repeat constructor; cbn; discriminate.
  - repeat constructor; cbn; discriminate.
  - split; [exact H1|exact H2].
Defined.


(** X23.  The two ends of the progress bar are exact: for a total that
    is a positive 64-bit count, the percentage reported when nothing is
    loaded is 0 and the one reported when [loaded] equals [total] is
    100, whatever the rounding of the division and of the product. *)
Theorem complete_upload_reports_100 (t : N) :
  (0 < t < 2 ^ 64)%N ->
  Api.progress_percent 0 t = 0%float
  /\ Api.progress_percent t t = 100%float.
Proof.
  intros [Ht0 Ht]. destruct t as [|t]; [lia|].
  assert (Ht' : (Zpos t < 2 ^ 64)%Z).
  { change (2 ^ 64)%Z with (Z.of_N (2 ^ 64)). lia. }
  split.
  - rewrite (proj1 (Binary64Facts.progress_percent_zero t Ht')).
    vm_compute. reflexivity.
  - destruct (Binary64Facts.Number_of_N_pos t Ht') as [Ct _].
    pose proof (Binary64Facts.canonical_pos _ _ _ Ct) as Hpos.
    destruct (Binary64Facts.quotient_facts t t ltac:(lia) Ht')
      as (Cq & Rq & Hq1).
    cbv zeta in Cq, Rq, Hq1.
    assert (Hq0 : 1 <= Binary64.SF2Q (Prim2SF (Number_of_N (Npos t)
                                       / Number_of_N (Npos t))%float)).
    { apply (Binary64Facts.rounds_mono _ _ _ _ Binary64Facts.rounds_1 Rq).
      apply Qle_shift_div_l; [exact Hpos|]. lra. }
    destruct (Binary64Facts.mul_canonical _ _ _ _ _ _ Cq
                Binary64Facts.canonical_100) as [_ Rp]; [lia..|].
    destruct (Binary64Facts.scaled_facts t t ltac:(lia) Ht') as [_ Hp1].
    assert (Hp0 : 100 <= Binary64.SF2Q (Prim2SF (Binary64.scaled t t))).
    { apply (Binary64Facts.rounds_mono _ _ _ _ Binary64Facts.rounds_100 Rp).
      rewrite Binary64Facts.value_100. lra. }
    destruct (Binary64Facts.progress_percent_pos t t ltac:(lia) Ht')
      as (Hv & _ & Hlo & Hhi).
    assert (H100 : Binary64.percent (Npos t) (Npos t) = 100%Z).
    { assert (H1 : inject_Z (Binary64.percent (Npos t) (Npos t))
                   < inject_Z 101).
      { change (inject_Z 101) with 101. lra. }
      assert (H2 : inject_Z 99
                   < inject_Z (Binary64.percent (Npos t) (Npos t))).
      { change (inject_Z 99) with 99. lra. }
      rewrite <- Zlt_Qlt in H1, H2. lia. }
    rewrite Hv, H100. vm_compute. reflexivity.
Qed.

Lemma complete_upload_reports_100_witness :
  Api.progress_percent 4096 4096 = 100%float.
Proof.
  apply (complete_upload_reports_100 4096). split; reflexivity.
Defined.
